(** * LJSpeech dataset: batch assembly pipeline

    A shallow embedding of [datasets/LJSpeech.py] (class [LJSpeechDataset]):
    the length-sorted example table ([_sort_frames]), the example loader
    ([load_wav], [__getitem__]) and the batch assembler ([collate_fn]).

    Conventions.
    - Python integers are [Z]; [np.int32] values are [Z] with the cast's
      wrap-around written out; [float32] samples are an opaque type [F]
      (only the shape and the placement of values is tracked).
    - A 1-D array is a list, a 2-D array a list of rows, a 3-D array a list
      of 2-D arrays; a dimension is read off the first item, so an array
      with no rows has no time dimension.
    - Strings are ASCII: [len] of a Python string is [String.length].
    - A method of the dataset object is a computation in the monad [M]:
      it threads the object ([self]) and the standard output, and either
      returns a value or raises a Python exception. *)

From stdpp Require Import base tactics option list strings sorting.
From Stdlib Require Import ZArith Lia Ascii.

Local Open Scope string_scope.
Local Open Scope list_scope.
Local Open Scope nat_scope.

(** ** Python exceptions *)

(** An exception is its class name and its message. *)
Record exn := Exn { exn_class : string; exn_arg : string }.

Inductive result (A : Type) : Type :=
| Ok (a : A)
| Raise (e : exn).
Arguments Ok {A} a.
Arguments Raise {A} e.

Definition IndexError_list : exn := Exn "IndexError" "list index out of range".
Definition TypeError_None : exn :=
  Exn "TypeError" "'NoneType' object is not subscriptable".
Definition ValueError_reduction (op : string) : exn :=
  Exn "ValueError"
      ("zero-size array to reduction operation " +:+ op +:+
       " which has no identity").
Definition ZeroDivisionError_mod : exn :=
  Exn "ZeroDivisionError" "integer division or modulo by zero".
Definition AssertionError : exn := Exn "AssertionError" "".

(** [except RuntimeError] also catches the built-in subclasses. *)
Definition is_RuntimeError (e : exn) : bool :=
  bool_decide (exn_class e ∈ ["RuntimeError"; "NotImplementedError"; "RecursionError"]).

(** ** Integers *)

(** [np.int32] cast of an integer: two's complement wrap-around. *)
Definition astype_int32 (z : Z) : Z := ((z + 2 ^ 31) `mod` 2 ^ 32 - 2 ^ 31)%Z.

Definition int32_range (z : Z) : Prop := (- 2 ^ 31 ≤ z < 2 ^ 31)%Z.

(** ** Step padding length (collate_fn, lines 97-103)

    [%] is Python's modulo, which agrees with [Z.modulo] for a non zero
    divisor; the zero divisor is handled where the method is modelled. *)
Definition step_pad_len (timesteps outputs_per_step : Z) : Z :=
  if decide ((timesteps + 1) `mod` outputs_per_step ≠ 0)%Z then
    let pad_len := (outputs_per_step - (timesteps + 1) `mod` outputs_per_step)%Z in
    (pad_len + 1)%Z
  else 1%Z.

(** ** Arrays (NumPy operations used by the source) *)

Section arrays.
Context {A : Type}.

(** Length of the first row: [m.shape[1]] of a 2-D array with at least
    one row. *)
Definition row_length (m : list (list A)) : nat :=
  default 0 (length <$> head m).

(** [a.shape[2]] of a 3-D array whose first two dimensions are not zero. *)
Definition shape2 (a : list (list (list A))) : nat :=
  default 0 (row_length <$> head a).

(** [a.shape[1]] of a 3-D array whose first dimension is not zero. *)
Definition shape1 (a : list (list (list A))) : nat :=
  default 0 (length <$> head a).

Definition is_matrix (k t : nat) (m : list (list A)) : Prop :=
  length m = k ∧ Forall (λ row, length row = t) m.

#[global] Instance is_matrix_dec k t m : Decision (is_matrix k t m).
Proof. unfold is_matrix. apply _. Defined.

(** [np.array([m_0, ..., m_n])] for 2-D arrays [m_i]: the stacked 3-D
    array when all shapes agree.  NumPy does not build a 3-D array of
    floats from arrays of different shapes; this is the [ValueError]
    below. *)
Definition np_array (l : list (list (list A))) : result (list (list (list A))) :=
  match l with
  | [] => Ok []
  | m :: _ =>
      if bool_decide (Forall (is_matrix (length m) (row_length m)) l)
      then Ok l
      else Raise (Exn "ValueError" "setting an array element with a sequence.")
  end.

(** Transposition of a 2-D array: column [t] of the argument is row [t]
    of the result. *)
Definition matrix_transpose (m : list (list A)) : list (list A) :=
  foldr (zip_with cons) (replicate (row_length m) []) m.

(** [a.transpose(0, 2, 1)] *)
Definition transpose_021 (a : list (list (list A))) : list (list (list A)) :=
  matrix_transpose <$> a.

(** Transposition with the number of columns given. *)
Definition transpose_cols (t : nat) (m : list (list A)) : list (list A) :=
  foldr (zip_with cons) (replicate t []) m.

(** [a[i][j][k]], when the indices are in range. *)
Definition item3 (a : list (list (list A))) (i j k : nat) : option A :=
  a !! i ≫= λ m, m !! j ≫= λ row, row !! k.

(** *** Helpers of [TTS.utils.data] *)

(** Modelled from the spec: [prepare_data] ([TTS.utils.data], the
    SequencePadder of section 4.3) is not part of the sources.  The matrix
    width is the maximum length of the input sequences, each row is the
    sequence followed by [fill] up to that width, and the lengths are the
    original lengths. *)
Definition SequencePadder_pad (fill : A) (sequences : list (list A))
  : list (list A) * list nat :=
  let width := max_list (length <$> sequences) in
  ((λ s, s ++ replicate (width - length s) fill) <$> sequences,
   length <$> sequences).

(** The source only takes the matrix; the fill value is the zero of the
    element type. *)
Definition prepare_data (zero : A) (inputs : list (list A)) : list (list A) :=
  (SequencePadder_pad zero inputs).1.

(** Modelled from the spec: [pad_per_step] ([TTS.utils.data]) is not part
    of the sources.  Section 4.5, step 4: both spectrogram arrays are
    padded along the time axis (the last one) by the pad length, with a
    configured pad value. *)
Definition pad_per_step (pad_value : A) (inputs : list (list (list A)))
    (pad_len : Z) : list (list (list A)) :=
  (λ m : list (list A),
     (λ row, row ++ replicate (Z.to_nat pad_len) pad_value) <$> m) <$> inputs.
End arrays.

(** ** Computations that may raise *)

Definition result_bind {A B} (r : result A) (k : A → result B) : result B :=
  match r with
  | Ok a => k a
  | Raise e => Raise e
  end.

(** A list comprehension [[f(x) for x in l]] whose body may raise: the
    first exception, in list order, is the one that escapes. *)
Fixpoint comprehension {A B} (f : A → result B) (l : list A) : result (list B) :=
  match l with
  | [] => Ok []
  | x :: l' =>
      result_bind (f x) (λ y,
      result_bind (comprehension f l') (λ ys, Ok (y :: ys)))
  end.

(** [np.max] and [np.min] of a 1-D integer array. *)
Definition np_max (l : list Z) : result Z :=
  match l with
  | [] => Raise (ValueError_reduction "maximum")
  | x :: l' => Ok (foldr Z.max x l')
  end.

Definition np_min (l : list Z) : result Z :=
  match l with
  | [] => Raise (ValueError_reduction "minimum")
  | x :: l' => Ok (foldr Z.min x l')
  end.

(** [np.asarray(l, dtype=np.int32)] of a list of Python integers. *)
Definition np_asarray_int32 (l : list Z) : result (list Z) :=
  if bool_decide (Forall int32_range l) then Ok l
  else Raise (Exn "OverflowError" "Python int too large to convert to C long").

(** ** Strings *)

(** [s.split(sep)] for a separator of one character: the fields between
    the separators, at least one. *)
Fixpoint split_on (sep : Ascii.ascii) (s : string) : list string :=
  match s with
  | EmptyString => [EmptyString]
  | String c s' =>
      if decide (c = sep) then EmptyString :: split_on sep s'
      else
        match split_on sep s' with
        | [] => [String c EmptyString]
        | field :: fields => String c field :: fields
        end
  end.

(** [sep.join(fields)] *)
Fixpoint join (sep : string) (fields : list string) : string :=
  match fields with
  | [] => EmptyString
  | [field] => field
  | field :: fields' => field +:+ sep +:+ join sep fields'
  end.

(** Number of occurrences of a character, [s.count(c)]. *)
Fixpoint count_char (c : Ascii.ascii) (s : string) : nat :=
  match s with
  | EmptyString => 0
  | String c' s' => (if decide (c' = c) then 1 else 0) + count_char c s'
  end.

(** ** The dataset object *)

(** What [print] receives: the format string and the formatted value. *)
Inductive print_arg :=
| PStr (s : string)
| PInt (z : Z)
| PMean (total : Z) (count : nat).

Inductive printed := Print (fmt : string) (arg : print_arg).

(** A row of the example table: [line.split('|')], or [None]. *)
Abbreviation row := (option (list string)).

Section LJSpeech.
Context {F : Type}.
(** [0.0], the fill value of waveform padding. *)
Variable zero : F.
(** The pad value of [pad_per_step]. *)
Variable pad_value : F.

(** [TTS.utils.audio.AudioProcessor], as far as the dataset uses it. *)
Record AudioProcessor := {
  spectrogram : list F → list (list F);
  melspectrogram : list F → list (list F)
}.

Record LJSpeechDataset := {
  frames : list row;
  root_dir : string;
  outputs_per_step : Z;
  sample_rate : Z;
  cleaners : string;
  ap : AudioProcessor
}.

Definition with_frames (new_frames : list row) (s : LJSpeechDataset)
  : LJSpeechDataset :=
  {| frames := new_frames; root_dir := root_dir s;
     outputs_per_step := outputs_per_step s; sample_rate := sample_rate s;
     cleaners := cleaners s; ap := ap s |}.

Record world := { self : LJSpeechDataset; stdout : list printed }.

(** *** The method monad *)

Definition M (A : Type) : Type := world → world * result A.

#[local] Instance M_ret : MRet M := λ A a w, (w, Ok a).
#[local] Instance M_bind : MBind M := λ A B k m w,
  match m w with
  | (w', Ok a) => k a w'
  | (w', Raise e) => (w', Raise e)
  end.

Definition raise {A} (e : exn) : M A := λ w, (w, Raise e).
Definition lift {A} (r : result A) : M A := λ w, (w, r).
Definition get_self : M LJSpeechDataset := λ w, (w, Ok (self w)).
Definition set_frames (new_frames : list row) : M unit := λ w,
  ({| self := with_frames new_frames (self w); stdout := stdout w |}, Ok tt).
Definition print (fmt : string) (arg : print_arg) : M unit := λ w,
  ({| self := self w; stdout := stdout w ++ [Print fmt arg] |}, Ok tt).

(** *** External collaborators *)

(** [librosa.core.load(filename, sr)]: the pair of the waveform and its
    sample rate, or the exception it raises. *)
Variable librosa_load : string → Z → result (list F * Z).
(** [text_to_sequence(text, cleaner_names)] *)
Variable text_to_sequence : string → list string → list Z.
(** [os.path.join] *)
Variable os_path_join : string → string → string.
(** [np.argsort(lengths)], with NumPy's default sort kind. *)
Variable np_argsort : list Z → list nat.

(** *** load_wav (lines 31-36) *)

(** The [except] branch prints and falls off the end of the method,
    which returns [None]. *)
Definition load_wav (filename : string) : M (option (list F * Z)) :=
  s ← get_self;
  match librosa_load filename (sample_rate s) with
  | Ok audio => mret (Some audio)
  | Raise e =>
      if is_RuntimeError e then
        print " !! Cannot read file : {}" (PStr filename);;
        mret None
      else raise e
  end.

(** *** _sort_frames (lines 38-50) *)

(** [len(ins[1])] *)
Definition len_ins_1 (ins : row) : result Z :=
  match ins with
  | None => Raise TypeError_None
  | Some fields =>
      match fields !! 1 with
      | Some transcript => Ok (Z.of_nat (String.length transcript))
      | None => Raise IndexError_list
      end
  end.

(** The loop [for i, idx in enumerate(idxs): new_frames[i] = frames[idx]],
    from position [i] on. *)
Fixpoint fill_new_frames (old_frames new_frames : list row)
    (i : nat) (idxs : list nat) : result (list row) :=
  match idxs with
  | [] => Ok new_frames
  | idx :: idxs' =>
      match old_frames !! idx with
      | None => Raise (Exn "IndexError" "list index out of range")
      | Some ins =>
          if decide (i < length new_frames) then
            fill_new_frames old_frames (<[i:=ins]> new_frames) (S i) idxs'
          else Raise (Exn "IndexError" "list assignment index out of range")
      end
  end.

Definition _sort_frames : M unit :=
  s ← get_self;
  lengths ← lift (comprehension len_ins_1 (frames s));
  longest ← lift (np_max lengths);
  print " | > Max length sequence {}" (PInt longest);;
  shortest ← lift (np_min lengths);
  print " | > Min length sequence {}" (PInt shortest);;
  print " | > Avg length sequence {}"
        (PMean (foldr Z.add 0%Z lengths) (length lengths));;
  let idxs := np_argsort lengths in
  let new_frames := replicate (length lengths) None in
  new_frames ← lift (fill_new_frames (frames s) new_frames 0 idxs);
  set_frames new_frames.

(** *** __len__ (lines 52-53) *)
Definition __len__ : M nat :=
  s ← get_self; mret (length (frames s)).

(** *** __getitem__ (lines 55-62) *)

(** The dictionary built by [__getitem__], with the keys ['text'],
    ['wav'] and ['item_idx']. *)
Record sample := {
  text : list Z;
  wav : list F;
  item_idx : string
}.

(** [self.frames[idx][k]] *)
Definition frames_idx (s : LJSpeechDataset) (idx k : nat) : result string :=
  match frames s !! idx with
  | None => Raise IndexError_list
  | Some None => Raise TypeError_None
  | Some (Some fields) =>
      match fields !! k with
      | Some field => Ok field
      | None => Raise IndexError_list
      end
  end.

Definition __getitem__ (idx : nat) : M sample :=
  s ← get_self;
  name ← lift (frames_idx s idx 0);
  let wav_name := os_path_join (root_dir s) name +:+ ".wav" in
  text ← lift (frames_idx s idx 1);
  text ← lift (np_asarray_int32 (text_to_sequence text [cleaners s]));
  loaded ← load_wav wav_name;
  wav ← match loaded with
        | Some audio => mret audio.1
        | None => raise TypeError_None
        end;
  name ← lift (frames_idx s idx 0);
  mret {| text := text; wav := wav; item_idx := name |}.

(** *** collate_fn (lines 68-120) *)

(** An element of the list given to [collate_fn]: a dictionary as built
    by [__getitem__], or any other object, known by the text that
    [format] prints for its type. *)
Inductive pyobj :=
| Mapping (d : sample)
| NotMapping (type_repr : string).

(** [d[key]] for a string key.  What the interpreter says of an object
    that is not a mapping depends on its type; only the class of the
    exception is meant. *)
Definition subscript {A} (field : sample → A) (d : pyobj) : result A :=
  match d with
  | Mapping d => Ok (field d)
  | NotMapping ty =>
      Raise (Exn "TypeError" ("indices of " +:+ ty +:+ " must not be str"))
  end.

(** The value returned by [collate_fn]:
    [text, text_lenghts, linear, mel, item_idxs[0]]. *)
Record PaddedBatch := {
  symbol_matrix : list (list Z);
  symbol_lengths : list Z;
  linear_spectrogram : list (list (list F));
  mel_spectrogram : list (list (list F));
  representative_identifier : string
}.

(** The message of the final [raise]; the string literal continues
    over a line break, hence the run of blanks. *)
Definition collate_TypeError (type_repr : string) : exn :=
  Exn "TypeError"
      ("batch must contain tensors, numbers, dicts or lists;" +:+
       "                         found " +:+ type_repr).

(** Lines 81-95: the padded symbols, their lengths, the stacked
    spectrograms and the identifiers, before step padding. *)
Definition extract (batch : list pyobj)
  : M (list (list Z) * list Z * list (list (list F)) * list (list (list F))
       * list string) :=
  s ← get_self;
  wav ← lift (comprehension (subscript wav) batch);
  item_idxs ← lift (comprehension (subscript item_idx) batch);
  text ← lift (comprehension (subscript text) batch);
  let text_lenghts :=
    (λ x : list Z, Z.of_nat (length x)) <$> (text : list (list Z)) in
  max_text_len ← lift (np_max text_lenghts);
  let text := (λ x : list Z, astype_int32 <$> x) <$> prepare_data 0%Z text in
  let wav := prepare_data zero wav in
  linear ← lift (np_array (spectrogram (ap s) <$> wav));
  mel ← lift (np_array (melspectrogram (ap s) <$> wav));
  if decide (shape2 mel = shape2 linear) then
    mret (text, text_lenghts, linear, mel, item_idxs)
  else raise AssertionError.

(** [batch[0]] is evaluated first, then the [isinstance] test.  The
    conversions to [torch.LongTensor] and [torch.FloatTensor] at the end
    keep the values and are not written out. *)
Definition collate_fn (batch : list pyobj) : M PaddedBatch :=
  s ← get_self;
  match batch with
  | [] => raise IndexError_list
  | Mapping _ :: _ =>
      '(text, text_lenghts, linear, mel, item_idxs) ← extract batch;
      let timesteps := Z.of_nat (shape2 mel) in
      if decide (outputs_per_step s = 0%Z) then raise ZeroDivisionError_mod
      else
        let pad_len := step_pad_len timesteps (outputs_per_step s) in
        let linear := pad_per_step pad_value linear pad_len in
        let mel := pad_per_step pad_value mel pad_len in
        let linear := transpose_021 linear in
        let mel := transpose_021 mel in
        match item_idxs with
        | [] => raise IndexError_list
        | first :: _ =>
            mret {| symbol_matrix := text;
                    symbol_lengths := text_lenghts;
                    linear_spectrogram := linear;
                    mel_spectrogram := mel;
                    representative_identifier := first |}
        end
  | NotMapping type_repr :: _ => raise (collate_TypeError type_repr)
  end.

(** *** get_dummy_data (lines 64-66) *)

(** [torch.ones(16, 143)] as a [LongTensor]. *)
Definition get_dummy_data : list (list Z) := replicate 16 (replicate 143 1%Z).

(** *** __init__ (lines 15-29) *)

(** The arguments handed on to [AudioProcessor], after the sample rate. *)
Record audio_params := {
  num_mels : Z;
  min_level_db : F;
  frame_shift_ms : F;
  frame_length_ms : F;
  preemphasis : F;
  ref_level_db : F;
  num_freq : Z;
  power : F
}.

(** [open(csv_file, "r")] and the iteration over its lines: the lines, each
    with its line break, or the exception of the file system. *)
Variable read_lines : string → result (list string).
(** The constructor of [AudioProcessor]. *)
Variable new_AudioProcessor : Z → audio_params → AudioProcessor.

(** The constructor: from the output stream so far to the output stream
    and the dataset object, or the exception that ends the construction. *)
Definition __init__ (csv_file root_dir : string) (outputs_per_step sample_rate : Z)
    (text_cleaner : string) (params : audio_params) (out : list printed)
  : list printed * result LJSpeechDataset :=
  match read_lines csv_file with
  | Raise e => (out, Raise e)
  | Ok lines =>
      let frames := (λ line, Some (split_on "|"%char line)) <$> lines in
      let s := {| frames := frames; root_dir := root_dir;
                  outputs_per_step := outputs_per_step;
                  sample_rate := sample_rate; cleaners := text_cleaner;
                  ap := new_AudioProcessor sample_rate params |} in
      let body :=
        print " > Reading LJSpeech from - {}" (PStr root_dir);;
        print " | > Number of instances : {}" (PInt (Z.of_nat (length frames)));;
        _sort_frames in
      match body {| self := s; stdout := out |} with
      | (w, Ok _) => (stdout w, Ok (self w))
      | (w, Raise e) => (stdout w, Raise e)
      end
  end.
End LJSpeech.

Arguments Mapping {F} d.
Arguments NotMapping {F} type_repr.

(** The symbol matrix and the lengths that [collate_fn] computes from the
    symbol sequences [texts] of the batch (lines 85 and 89). *)
Definition padded_text (texts : list (list Z)) : list (list Z) :=
  (λ x : list Z, astype_int32 <$> x) <$> prepare_data 0%Z texts.
Definition text_lengths (texts : list (list Z)) : list Z :=
  (λ x : list Z, Z.of_nat (length x)) <$> texts.

(** The configuration has at least one frequency bin and one mel band. *)
Definition has_bins {F} (ap : AudioProcessor (F := F)) : Prop :=
  ∀ y, spectrogram ap y ≠ [] ∧ melspectrogram ap y ≠ [].

(** *** Ordering of the example table *)

(** The transcript length of a row of the example table, [len(ins[1])]. *)
Definition transcript_length (fields : list string) : nat :=
  default 0 (String.length <$> fields !! 1).

Definition lengths_of (E : list (list string)) : list Z :=
  (λ fields, Z.of_nat (transcript_length fields)) <$> E.

Definition by_length (a b : list string) : Prop :=
  transcript_length a ≤ transcript_length b.

(** What NumPy documents of [argsort]: the result lists the positions of
    [v], each once, in an order that sorts [v]. *)
Definition is_argsort (v : list Z) (idxs : list nat) : Prop :=
  idxs ≡ₚ seq 0 (length v) ∧ StronglySorted Z.le ((λ i, v !!! i) <$> idxs).

(** Stability: two rows of equal transcript length that follow each other
    in [E'] occur in that order in [E]. *)
Definition keeps_tie_order (E E' : list (list string)) : Prop :=
  ∀ i j a b,
    i < j → E' !! i = Some a → E' !! j = Some b →
    transcript_length a = transcript_length b →
    ∃ i0 j0, i0 < j0 ∧ E !! i0 = Some a ∧ E !! j0 = Some b.

(** Unfolding of the method monad. *)
Ltac run_M :=
  unfold mbind, M_bind, mret, M_ret, lift, raise, get_self in *; simpl in *.

(** ** SpectralFrontend *)

Section SpectralFrontend.
Context {F Cx : Type}.
(** Pre-emphasis filter applied to the waveform before the transform. *)
Variable apply_preemphasis : list F → list F.
(** The shared short-time transform, [freq_bins × time], for the fixed
    window length, hop length and FFT size. *)
Variable stft : list F → list (list Cx).
(** Magnitude of a complex bin. *)
Variable magnitude : Cx → F.
(** Reference-level decibel conversion, [20 * log10(max(m, floor))]. *)
Variable amp_to_db : F → F.
(** Clamp into the dynamic range, then min-max normalisation. *)
Variable normalize : F → F.
(** The mel filter bank, [mel_bins × freq_bins], and the inner product
    of a filter with one frame. *)
Variable mel_basis : list (list F).
Variable dot : list F → list F → F.

(** Projection of the FFT bins onto the filter bank: the matrix product
    of [mel_basis] with the magnitudes. *)
Definition linear_to_mel (S : list (list F)) : list (list F) :=
  (λ filter : list F, dot filter <$> matrix_transpose S) <$> mel_basis.

(** Modelled from the spec: [AudioProcessor.spectrogram]
    ([TTS.utils.audio]) is not part of the sources.  Section 4.4:
    pre-emphasis, the short-time transform, magnitude, decibel
    conversion, clamp and normalisation. *)
Definition frontend_spectrogram (y : list F) : list (list F) :=
  let D := stft (apply_preemphasis y) in
  (λ bins : list Cx, (λ c, normalize (amp_to_db (magnitude c))) <$> bins) <$> D.

(** Modelled from the spec: [AudioProcessor.melspectrogram]
    ([TTS.utils.audio]) is not part of the sources.  Section 4.4: as the
    linear variant, with the projection onto the mel filter bank before
    the decibel step. *)
Definition frontend_melspectrogram (y : list F) : list (list F) :=
  let D := stft (apply_preemphasis y) in
  let S := (λ bins : list Cx, magnitude <$> bins) <$> D in
  (λ band : list F, (λ m, normalize (amp_to_db m)) <$> band) <$> linear_to_mel S.

Definition SpectralFrontend : AudioProcessor :=
  {| spectrogram := frontend_spectrogram;
     melspectrogram := frontend_melspectrogram |}.
End SpectralFrontend.

(** ** NumPy's default [argsort]

    [np.argsort(a)] sorts with [kind='quicksort'], which NumPy documents as
    not stable.  The definitions below follow NumPy's indirect introsort
    ([aquicksort] in [npysort/quicksort.c.src], the implementation for
    integer keys in the releases the dataset was written for):
    median-of-three
    partitioning of ranges of more than 17 elements, insertion sort of the
    ranges below, and heapsort ([aheapsort]) of a range whose depth budget
    is used up.  [v] is the array of keys, [t] the array of indices being
    permuted ([tosort]). *)

Module NumPy.

Definition key (v : list Z) (t : list nat) (p : nat) : Z := v !!! (t !!! p).

Definition LT (a b : Z) : bool := (a <? b)%Z.

(** [INTP_SWAP(t[i], t[j])] *)
Definition swap (t : list nat) (i j : nat) : list nat :=
  <[i := t !!! j]> (<[j := t !!! i]> t).

Definition SMALL_QUICKSORT : nat := 16.

(** [do ++pi; while (v[*pi] < vp);] *)
Fixpoint scan_up (fuel : nat) (v : list Z) (t : list nat) (vp : Z) (pi : nat) : nat :=
  match fuel with
  | 0 => pi
  | S fuel' =>
      let pi := S pi in
      if LT (key v t pi) vp then scan_up fuel' v t vp pi else pi
  end.

(** [do --pj; while (vp < v[*pj]);] *)
Fixpoint scan_down (fuel : nat) (v : list Z) (t : list nat) (vp : Z) (pj : nat) : nat :=
  match fuel with
  | 0 => pj
  | S fuel' =>
      let pj := pred pj in
      if LT vp (key v t pj) then scan_down fuel' v t vp pj else pj
  end.

(** The [for (;;)] loop of the partition. *)
Fixpoint partition_loop (fuel : nat) (v : list Z) (t : list nat) (vp : Z)
    (pi pj : nat) : list nat * nat :=
  match fuel with
  | 0 => (t, pi)
  | S fuel' =>
      let pi := scan_up (length t) v t vp pi in
      let pj := scan_down (length t) v t vp pj in
      if bool_decide (pj ≤ pi) then (t, pi)
      else partition_loop fuel' v (swap t pi pj) vp pi pj
  end.

(** One partition of the range [[pl, pr]]: the permuted indices and the
    final position of the pivot. *)
Definition partition (v : list Z) (t : list nat) (pl pr : nat) : list nat * nat :=
  let pm := pl + (pr - pl) / 2 in
  let t := if LT (key v t pm) (key v t pl) then swap t pm pl else t in
  let t := if LT (key v t pr) (key v t pm) then swap t pr pm else t in
  let t := if LT (key v t pm) (key v t pl) then swap t pm pl else t in
  let vp := key v t pm in
  let pi := pl in
  let pj := pr - 1 in
  let t := swap t pm pj in
  let '(t, pi) := partition_loop (length t) v t vp pi pj in
  let pk := pr - 1 in
  (swap t pi pk, pi).

(** [while (pj > pl && vp < v[*pk]) *pj-- = *pk--;] *)
Fixpoint shift_up (fuel : nat) (v : list Z) (t : list nat) (vp : Z)
    (pl pj : nat) : list nat * nat :=
  match fuel with
  | 0 => (t, pj)
  | S fuel' =>
      if bool_decide (pl < pj) && LT vp (key v t (pj - 1)) then
        shift_up fuel' v (<[pj := t !!! (pj - 1)]> t) vp pl (pj - 1)
      else (t, pj)
  end.

(** Insertion sort of [count] positions from [pi] on, in the range that
    starts at [pl]. *)
Fixpoint insertion_loop (count : nat) (v : list Z) (t : list nat)
    (pl pi : nat) : list nat :=
  match count with
  | 0 => t
  | S count' =>
      let vi := t !!! pi in
      let vp := v !!! vi in
      let '(t, pj) := shift_up pi v t vp pl pi in
      insertion_loop count' v (<[pj := vi]> t) pl (S pi)
  end.

Definition insertion_sort (v : list Z) (t : list nat) (pl pr : nat) : list nat :=
  insertion_loop (pr - pl) v t pl (S pl).

(** *** Heapsort of the range of [n] positions that starts at [pl];
    [a[i]] is position [pl + i - 1]. *)

Definition a_ (pl i : nat) : nat := pl + i - 1.

Fixpoint sift (fuel : nat) (v : list Z) (t : list nat) (pl n tmp i j : nat)
  : list nat * nat :=
  match fuel with
  | 0 => (t, i)
  | S fuel' =>
      if bool_decide (j ≤ n) then
        let j :=
          if bool_decide (j < n) && LT (key v t (a_ pl j)) (key v t (a_ pl (j + 1)))
          then j + 1 else j in
        if LT (v !!! tmp) (key v t (a_ pl j)) then
          sift fuel' v (<[a_ pl i := t !!! a_ pl j]> t) pl n tmp j (j + j)
        else (t, i)
      else (t, i)
  end.

Fixpoint heapify (l : nat) (v : list Z) (t : list nat) (pl n : nat) : list nat :=
  match l with
  | 0 => t
  | S l' =>
      let tmp := t !!! a_ pl l in
      let '(t, i) := sift n v t pl n tmp l (2 * l) in
      heapify l' v (<[a_ pl i := tmp]> t) pl n
  end.

Fixpoint sortdown (n : nat) (v : list Z) (t : list nat) (pl : nat) : list nat :=
  match n with
  | 0 => t
  | S n' =>
      if bool_decide (1 < n) then
        let tmp := t !!! a_ pl n in
        let t := <[a_ pl n := t !!! a_ pl 1]> t in
        let '(t, i) := sift n v t pl n' tmp 1 2 in
        sortdown n' v (<[a_ pl i := tmp]> t) pl
      else t
  end.

Definition aheapsort (v : list Z) (t : list nat) (pl n : nat) : list nat :=
  sortdown n v (heapify (n / 2) v t pl n) pl.

(** *** The introsort driver

    [sort_range fuel popped v t pl pr cdepth] sorts the range [[pl, pr]].
    A range taken from the stack ([popped]) is heapsorted when its depth
    budget is negative; the range the loop continues with is not checked.
    The ranges are disjoint, so the order in which the stack hands them
    out does not change the result. *)
Fixpoint sort_range (fuel : nat) (popped : bool) (v : list Z) (t : list nat)
    (pl pr : nat) (cdepth : Z) : list nat :=
  match fuel with
  | 0 => t
  | S fuel' =>
      if popped && (cdepth <? 0)%Z then aheapsort v t pl (pr - pl + 1)
      else if bool_decide (SMALL_QUICKSORT < pr - pl) then
        let '(t, pi) := partition v t pl pr in
        let cdepth := (cdepth - 1)%Z in
        if bool_decide (pi - pl < pr - pi) then
          let t := sort_range fuel' false v t pl (pi - 1) cdepth in
          sort_range fuel' true v t (pi + 1) pr cdepth
        else
          let t := sort_range fuel' false v t (pi + 1) pr cdepth in
          sort_range fuel' true v t pl (pi - 1) cdepth
      else insertion_sort v t pl pr
  end.

(** [npy_get_msb(n) * 2] *)
Definition depth_limit (n : nat) : Z := (Z.log2 (Z.of_nat n) * 2)%Z.

Definition argsort (v : list Z) : list nat :=
  let n := length v in
  sort_range (S n) true v (seq 0 n) 0 (n - 1) (depth_limit n).

End NumPy.

(** ** Concrete instances

    Samples are integers here; the frontend frames a waveform into two
    frequency bins and one mel band, one frame per sample. *)

Module Instances.

Definition apply_preemphasis (y : list Z) : list Z := y.
Definition stft (y : list Z) : list (list Z) := [y; Z.opp <$> y].
Definition dot (a b : list Z) : Z := foldr Z.add 0%Z (zip_with Z.mul a b).
Definition mel_basis : list (list Z) := [[1; 1]%Z].

Definition frontend : AudioProcessor (F := Z) :=
  SpectralFrontend apply_preemphasis stft Z.abs id id mel_basis dot.

Definition dataset (rows : list row) (r : Z) : LJSpeechDataset (F := Z) :=
  {| frames := rows; root_dir := "LJSpeech-1.0/wavs"; outputs_per_step := r;
     sample_rate := 22050; cleaners := "english_cleaners"; ap := frontend |}.

Definition world0 (rows : list row) (r : Z) : world (F := Z) :=
  {| self := dataset rows r; stdout := [] |}.

(** The examples of the scenario of section 8, with shorter waveforms. *)
Definition sample_a : sample (F := Z) :=
  {| text := [1; 2]%Z; wav := replicate 3 0%Z; item_idx := "a" |}.
Definition sample_b : sample (F := Z) :=
  {| text := [1; 2; 3; 4]%Z; wav := replicate 7 0%Z; item_idx := "b" |}.
Definition batch_ab : list (pyobj (F := Z)) := [Mapping sample_a; Mapping sample_b].

(** A decoder that cannot read one of the files. *)
Definition librosa_load (filename : string) (sr : Z) : result (list Z * Z) :=
  if bool_decide (filename = "LJSpeech-1.0/wavs/LJ001-0002.wav")
  then Raise (Exn "RuntimeError" "could not decode the file")
  else Ok ([0; 0; 0]%Z, sr).
Definition text_to_sequence (t : string) (cleaner_names : list string) : list Z :=
  (λ _, 1%Z) <$> seq 0 (String.length t).
Definition os_path_join (a b : string) : string := a +:+ "/" +:+ b.

(** Eighteen rows whose transcripts all have the same length. *)
Definition examples18 : list (list string) :=
  (λ n, ["LJ" +:+ String (Ascii.ascii_of_nat (65 + n)) ""; "abcde"]) <$> seq 0 18.
Definition rows18 : list row := Some <$> examples18.

(** Two rows of the example table, the second with an unreadable file. *)
Definition rows2 : list row :=
  [Some ["LJ001-0001"; "hello"]; Some ["LJ001-0002"; "world"]].


(** A manifest of three lines, and one whose second line has no separator. *)
Definition line_break : string := String (Ascii.ascii_of_nat 10) EmptyString.
Definition manifest : list string :=
  ["LJ001-0001|Printing, in the only sense|Printing" +:+ line_break;
   "LJ001-0002|in being|in being" +:+ line_break;
   "LJ001-0003|For although|For although" +:+ line_break].
Definition read_lines (csv_file : string) : result (list string) :=
  if bool_decide (csv_file = "metadata.csv") then Ok manifest
  else if bool_decide (csv_file = "broken.csv")
       then Ok ["LJ001-0001|Printing|Printing" +:+ line_break;
                "LJ001-0002" +:+ line_break]
  else if bool_decide (csv_file = "empty.csv") then Ok []
  else Raise (Exn "FileNotFoundError" csv_file).
Definition params : audio_params (F := Z) :=
  {| num_mels := 80; min_level_db := (-100)%Z; frame_shift_ms := 12%Z;
     frame_length_ms := 50%Z; preemphasis := 1%Z; ref_level_db := 20%Z;
     num_freq := 1025; power := 1%Z |}.
Definition new_AudioProcessor (sr : Z) (p : audio_params (F := Z))
  : AudioProcessor (F := Z) := frontend.
End Instances.

(** * Properties *)

(** ** The step padding length *)

Lemma step_pad_len_cases (timesteps r : Z) :
  step_pad_len timesteps r =
    (if decide ((timesteps + 1) `mod` r ≠ 0)%Z
     then r - (timesteps + 1) `mod` r + 1 else 1)%Z.
Proof. reflexivity. Qed.

Lemma step_pad_len_multiple (timesteps r : Z) :
  (1 ≤ r)%Z → ((timesteps + step_pad_len timesteps r) `mod` r = 0)%Z.
Proof.
  intros Hr. unfold step_pad_len.
  destruct (decide _) as [Hne|Heq].
  - replace (timesteps + (r - (timesteps + 1) `mod` r + 1))%Z
      with ((timesteps + 1) - (timesteps + 1) `mod` r + 1 * r)%Z by lia.
    rewrite Z.mod_add by lia.
    rewrite Zminus_mod, Zmod_mod, Z.sub_diag. apply Zmod_0_l.
  - apply dec_stable in Heq. exact Heq.
Qed.

Lemma step_pad_len_range (timesteps r : Z) :
  (1 ≤ r)%Z → (1 ≤ step_pad_len timesteps r ≤ r)%Z.
Proof.
  intros Hr. unfold step_pad_len.
  pose proof (Z.mod_pos_bound (timesteps + 1) r ltac:(lia)) as Hm.
  destruct (decide _) as [Hne|Heq]; lia.
Qed.

(** C10: for [timesteps >= 0] and [outputs_per_step >= 1] the pad length
    computed by [collate_fn] lies between [1] and [outputs_per_step], so
    the time dimension, [timesteps + pad_len] after step padding, grows by
    at least one and at most [outputs_per_step] frames. *)
Theorem step_pad_len_bounds (timesteps r : Z) :
  (0 ≤ timesteps)%Z → (1 ≤ r)%Z →
  let pad_len := step_pad_len timesteps r in
  (1 ≤ pad_len ≤ r)%Z ∧
  (timesteps + 1 ≤ timesteps + pad_len ≤ timesteps + r)%Z.
Proof.
  intros Ht Hr pad_len.
  pose proof (step_pad_len_range timesteps r Hr) as Hrange.
  unfold pad_len. lia.
Qed.

Lemma step_pad_len_bounds_witness : (1 ≤ step_pad_len 9 5 ≤ 5)%Z.
Proof. apply (proj1 (step_pad_len_bounds 9 5 ltac:(lia) ltac:(lia))). Defined.

(** ** Arrays *)

Section array_facts.
Context {A : Type}.
Implicit Types (m : list (list A)) (a : list (list (list A))).

Lemma np_array_Ok (l a : list (list (list A))) :
  np_array l = Ok a →
  a = l ∧ ∀ m0, head l = Some m0 →
                Forall (is_matrix (length m0) (row_length m0)) l.
Proof.
  destruct l as [|m l']; simpl.
  - intros [= <-]. split; [done|]. intros m0 [=].
  - case_bool_decide as Hall; [|done].
    intros [= <-]. split; [done|]. by intros m0 [= <-].
Qed.

Lemma np_array_not_AssertionError (l : list (list (list A))) e :
  np_array l = Raise e → exn_class e = "ValueError".
Proof.
  destruct l as [|m l']; simpl; [done|].
  case_bool_decide; [done|]. by intros [= <-].
Qed.

Lemma matrix_transpose_cols m t :
  Forall (λ row, length row = t) m → m ≠ [] →
  matrix_transpose m = transpose_cols t m.
Proof.
  intros Hm Hne. unfold matrix_transpose, transpose_cols, row_length.
  destruct m as [|row m']; [done|].
  apply Forall_cons in Hm as [<- _]. done.
Qed.

Lemma length_transpose_cols m t :
  Forall (λ row, length row = t) m → length (transpose_cols t m) = t.
Proof.
  unfold transpose_cols. induction 1 as [|row m' Hrow _ IH]; simpl.
  - by rewrite length_replicate.
  - rewrite length_zip_with, IH. lia.
Qed.

Lemma Forall_length_transpose_cols m t :
  Forall (λ col, length col = length m) (transpose_cols t m).
Proof.
  unfold transpose_cols. induction m as [|row m' IH]; simpl.
  - apply Forall_forall. intros col Hcol.
    by apply elem_of_replicate in Hcol as [-> _].
  - revert IH. generalize (foldr (zip_with cons) (replicate t []) m').
    intros cols IH. revert row. induction IH as [|col cols Hcol _ IH']; intros [|x row]; simpl;
      try constructor; simpl; auto.
Qed.

(** Element [[t][k]] of the transposed array is element [[k][t]]. *)
Lemma transpose_cols_lookup m t (i k : nat) :
  Forall (λ row, length row = t) m →
  transpose_cols t m !! i ≫= (.!! k) = m !! k ≫= (.!! i).
Proof.
  intros Hm. revert k. induction Hm as [|row m' Hrow Hm' IH]; intros k.
  - simpl. destruct (replicate t [] !! i) as [col|] eqn:Hcol; simpl; [|done].
    apply lookup_replicate in Hcol as [-> _]. done.
  - change (transpose_cols t (row :: m'))
      with (zip_with cons row (transpose_cols t m')).
    rewrite lookup_zip_with.
    pose proof (length_transpose_cols m' t Hm') as Hlen.
    destruct (row !! i) as [x|] eqn:Hx; simpl.
    + destruct (transpose_cols t m' !! i) as [col|] eqn:Hcol; simpl.
      * destruct k as [|k]; simpl; [by rewrite Hx|].
        exact (IH k).
      * apply lookup_lt_Some in Hx. apply lookup_ge_None in Hcol. lia.
    + destruct k as [|k]; simpl; [by rewrite Hx|].
      rewrite <- IH. apply lookup_ge_None in Hx.
      rewrite (proj2 (lookup_ge_None (transpose_cols t m') i)); [done|lia].
Qed.

Lemma matrix_transpose_lookup m t (i k : nat) :
  Forall (λ row, length row = t) m →
  matrix_transpose m !! i ≫= (.!! k) = m !! k ≫= (.!! i).
Proof.
  intros Hm. destruct (decide (m = [])) as [->|Hne]; [done|].
  rewrite (matrix_transpose_cols m t) by done.
  by apply transpose_cols_lookup.
Qed.

Lemma length_matrix_transpose m t :
  Forall (λ row, length row = t) m → m ≠ [] →
  length (matrix_transpose m) = t.
Proof.
  intros Hm Hne. rewrite (matrix_transpose_cols m t) by done.
  by apply length_transpose_cols.
Qed.
End array_facts.

(** ** Batch assembly *)

Section collate_facts.
Context {F : Type} (zero pad_value : F).
Implicit Types (batch : list (pyobj (F := F))) (w : world (F := F)).

Lemma comprehension_subscript_Ok {B} (field : sample → B) batch l :
  comprehension (subscript field) batch = Ok l →
  ∃ ds, batch = Mapping <$> ds ∧ l = field <$> ds.
Proof.
  revert l. induction batch as [|d batch IH]; simpl; intros l.
  - intros [= <-]. by exists [].
  - destruct d as [d|ty]; simpl; [|done].
    destruct (comprehension _ batch) as [l'|e]; simpl; [|done].
    intros [= <-]. destruct (IH _ eq_refl) as (ds & -> & ->).
    by exists (d :: ds).
Qed.

Lemma comprehension_subscript_Mapping {B} (field : sample → B)
    (ds : list (sample (F := F))) :
  comprehension (subscript field) (Mapping <$> ds) = Ok (field <$> ds).
Proof.
  induction ds as [|d ds IH]; [done|].
  rewrite !fmap_cons. cbn [comprehension subscript result_bind].
  by rewrite IH.
Qed.

Lemma comprehension_subscript_Raise {B} (field : sample → B) batch e :
  comprehension (subscript field) batch = Raise e → exn_class e = "TypeError".
Proof.
  induction batch as [|d batch IH]; simpl; [done|].
  destruct d as [d|ty]; simpl; [|by intros [= <-]].
  destruct (comprehension _ batch) as [l'|e']; simpl; [done|].
  intros [= <-]. by apply IH.
Qed.

(** What a successful run of lines 81-95 has computed. *)
Lemma extract_Ok batch w w' txt lens linear mel ids :
  extract zero batch w = (w', Ok (txt, lens, linear, mel, ids)) →
  w' = w ∧
  ∃ ds, batch = Mapping <$> ds ∧ ds ≠ [] ∧
    ids = item_idx <$> ds ∧
    txt = padded_text (text <$> ds) ∧
    lens = text_lengths (text <$> ds) ∧
    np_array (spectrogram (ap (self w)) <$> prepare_data zero (wav <$> ds))
      = Ok linear ∧
    np_array (melspectrogram (ap (self w)) <$> prepare_data zero (wav <$> ds))
      = Ok mel ∧
    shape2 mel = shape2 linear.
Proof.
  unfold extract. run_M.
  destruct (comprehension (subscript wav) batch) as [wavs|e] eqn:Hwav; [|done].
  destruct (comprehension (subscript item_idx) batch) as [ids'|e] eqn:Hids; [|done].
  destruct (comprehension (subscript text) batch) as [texts|e] eqn:Htext;
    [|done].
  destruct (np_max _) as [mx|e] eqn:Hmax; [|done].
  destruct (np_array (spectrogram _ <$> _)) as [linear'|e] eqn:Hlin; [|done].
  destruct (np_array (melspectrogram _ <$> _)) as [mel'|e] eqn:Hmel; [|done].
  destruct (decide _) as [Hshape|]; [|done].
  intros [= <- <- <- <- <- <-]. split; [done|].
  apply comprehension_subscript_Ok in Hwav as (ds & -> & ->).
  rewrite comprehension_subscript_Mapping in Hids.
  rewrite comprehension_subscript_Mapping in Htext.
  injection Hids as <-. injection Htext as <-.
  exists ds. repeat split; try done.
  intros ->. done.
Qed.

(** What a successful run of [collate_fn] has computed. *)
Lemma collate_fn_Ok batch w w' out :
  collate_fn zero pad_value batch w = (w', Ok out) →
  w' = w ∧ outputs_per_step (self w) ≠ 0%Z ∧
  ∃ text lens linear mel first ids,
    extract zero batch w = (w, Ok (text, lens, linear, mel, first :: ids)) ∧
    let pad_len :=
      step_pad_len (Z.of_nat (shape2 mel)) (outputs_per_step (self w)) in
    out = {| symbol_matrix := text;
             symbol_lengths := lens;
             linear_spectrogram :=
               transpose_021 (pad_per_step pad_value linear pad_len);
             mel_spectrogram :=
               transpose_021 (pad_per_step pad_value mel pad_len);
             representative_identifier := first |}.
Proof.
  unfold collate_fn. run_M.
  destruct batch as [|[d|ty] batch]; [done| |done].
  destruct (extract zero _ w) as [w1 [[[[[text lens] linear] mel] ids]|e]] eqn:Hex;
    [|done].
  pose proof (extract_Ok _ _ _ _ _ _ _ _ Hex) as [-> _].
  destruct (decide (outputs_per_step (self w) = 0%Z)) as [|Hr]; [done|].
  destruct ids as [|first ids]; [done|].
  intros [= <- <-]. split; [done|]. split; [done|].
  by exists text, lens, linear, mel, first, ids.
Qed.
End collate_facts.

Section step_padding.
Context {F : Type} (zero pad_value : F).
Implicit Types (batch : list (pyobj (F := F))) (w : world (F := F)).

Lemma length_prepare_data {A} (z : A) (l : list (list A)) :
  length (prepare_data z l) = length l.
Proof. unfold prepare_data. simpl. by rewrite length_fmap. Qed.

Lemma shape2_stacked {A} (a : list (list (list A))) m0 :
  head a = Some m0 → shape2 a = row_length m0.
Proof. unfold shape2. by intros ->. Qed.

(** Time dimension of a stacked array after step padding and
    transposition. *)
Lemma padded_time_dimension {A} (pv : A) (a : list (list (list A))) m0 (pad_len : Z) :
  head a = Some m0 → m0 ≠ [] → (0 ≤ pad_len)%Z →
  Forall (is_matrix (length m0) (row_length m0)) a →
  Forall (λ m, Z.of_nat (length m) = (Z.of_nat (shape2 a) + pad_len)%Z)
         (transpose_021 (pad_per_step pv a pad_len)).
Proof.
  intros Hhead Hne Hpad Hall.
  rewrite (shape2_stacked a m0 Hhead).
  unfold transpose_021, pad_per_step.
  rewrite Forall_fmap, Forall_fmap.
  eapply Forall_impl; [exact Hall|].
  intros m [Hrows Hcols]. simpl.
  rewrite (length_matrix_transpose _ (row_length m0 + Z.to_nat pad_len)).
  - lia.
  - rewrite Forall_fmap. eapply Forall_impl; [exact Hcols|].
    intros row Hrow. simpl. rewrite length_app, length_replicate.
    by rewrite Hrow.
  - destruct m; [|done]. destruct m0; done.
Qed.

(** C1: for a batch that [collate_fn] assembles with
    [outputs_per_step >= 1], the time dimension of every emitted
    spectrogram is [timesteps + pad_len], where [timesteps] is the common
    frame count after spectral extraction and [pad_len] is
    [outputs_per_step - (timesteps + 1) mod outputs_per_step + 1] when
    [(timesteps + 1) mod outputs_per_step] is not zero and [1] otherwise;
    it is a multiple of [outputs_per_step] and at least
    [timesteps + 1]. *)
Theorem collate_fn_step_padding batch w w' out :
  has_bins (ap (self w)) →
  (1 ≤ outputs_per_step (self w))%Z →
  collate_fn zero pad_value batch w = (w', Ok out) →
  batch ≠ [] ∧
  ∃ text lens linear mel ids,
    extract zero batch w = (w, Ok (text, lens, linear, mel, ids)) ∧
    let timesteps := Z.of_nat (shape2 mel) in
    let r := outputs_per_step (self w) in
    let pad_len :=
      (if decide ((timesteps + 1) `mod` r ≠ 0)
       then r - (timesteps + 1) `mod` r + 1 else 1)%Z in
    let timesteps_out := (timesteps + pad_len)%Z in
    shape2 linear = shape2 mel ∧
    length (linear_spectrogram out) = length batch ∧
    length (mel_spectrogram out) = length batch ∧
    Forall (λ m, Z.of_nat (length m) = timesteps_out) (linear_spectrogram out) ∧
    Forall (λ m, Z.of_nat (length m) = timesteps_out) (mel_spectrogram out) ∧
    (timesteps_out `mod` r = 0)%Z ∧
    (timesteps + 1 ≤ timesteps_out)%Z.
Proof.
  intros Hbins Hr Hrun.
  apply collate_fn_Ok in Hrun
    as (-> & _ & text & lens & linear & mel & first & ids & Hex & ->).
  pose proof (extract_Ok _ _ _ _ _ _ _ _ _ Hex)
    as (_ & ds & -> & Hds & _ & _ & _ & Hlin & Hmel & Hshape).
  split; [by destruct ds|].
  exists text, lens, linear, mel, (first :: ids). split; [done|].
  apply np_array_Ok in Hlin as [-> Hlin], Hmel as [-> Hmel].
  destruct (prepare_data zero (wav <$> ds)) as [|y ys] eqn:Hwavs.
  { apply (f_equal length) in Hwavs.
    rewrite length_prepare_data, length_fmap in Hwavs. by destruct ds. }
  assert (length (y :: ys) = length ds) as Hlen.
  { by rewrite <- Hwavs, length_prepare_data, length_fmap. }
  rewrite !fmap_cons in *.
  specialize (Hlin _ eq_refl). specialize (Hmel _ eq_refl).
  destruct (Hbins y) as [Hlin_ne Hmel_ne].
  set (mel := melspectrogram (ap (self w)) y
              :: (melspectrogram (ap (self w)) <$> ys)) in *.
  set (linear := spectrogram (ap (self w)) y
                 :: (spectrogram (ap (self w)) <$> ys)) in *.
  set (timesteps := Z.of_nat (shape2 mel)) in *.
  pose proof (step_pad_len_range timesteps (outputs_per_step (self w)) Hr)
    as Hbounds.
  pose proof (step_pad_len_multiple timesteps (outputs_per_step (self w)) Hr)
    as Hmult.
  cbv zeta.
  rewrite <- (step_pad_len_cases timesteps (outputs_per_step (self w))).
  cbn [linear_spectrogram mel_spectrogram].
  split; [done|].
  split.
  { unfold transpose_021, pad_per_step. rewrite !length_fmap.
    unfold linear. simpl. by rewrite length_fmap. }
  split.
  { unfold transpose_021, pad_per_step. rewrite !length_fmap.
    unfold mel. simpl. by rewrite length_fmap. }
  split.
  { unfold timesteps at 1. rewrite Hshape.
    eapply padded_time_dimension; [done|done|lia|done]. }
  split.
  { eapply padded_time_dimension; [done|done|lia|done]. }
  split; [exact Hmult|lia].
Qed.
End step_padding.

Lemma frontend_has_bins : has_bins Instances.frontend.
Proof. intros y. split; done. Qed.

Lemma collate_fn_step_padding_witness :
  ∃ out,
    collate_fn 0%Z 0%Z Instances.batch_ab (Instances.world0 [] 5)
      = (Instances.world0 [] 5, Ok out) ∧
    Forall (λ m, (Z.of_nat (length m) `mod` 5 = 0)%Z) (linear_spectrogram out) ∧
    Forall (λ m, (Z.of_nat (length m) `mod` 5 = 0)%Z) (mel_spectrogram out).
Proof.
  destruct (collate_fn 0%Z 0%Z Instances.batch_ab (Instances.world0 [] 5))
    as [w' [out|e]] eqn:Hrun; [|vm_compute in Hrun; discriminate].
  destruct (collate_fn_step_padding 0%Z 0%Z Instances.batch_ab
              (Instances.world0 [] 5) w' out frontend_has_bins
              ltac:(simpl; lia) Hrun)
    as (_ & text & lens & linear & mel & ids & _ & _ & _ & _ & Hl & Hm & Hmod & _).
  exists out. split.
  - vm_compute in Hrun. injection Hrun as <- <-. vm_compute. reflexivity.
  - split; (eapply Forall_impl; [eassumption|]); intros m ->; exact Hmod.
Defined.

(** ** Layout of the emitted spectrograms *)

Section layout.
Context {F : Type} (zero pad_value : F).
Implicit Types (batch : list (pyobj (F := F))) (w : world (F := F)).

Lemma transpose_021_lookup {A} (a : list (list (list A))) (k0 t0 b t k : nat) :
  Forall (is_matrix k0 t0) a →
  item3 (transpose_021 a) b t k = item3 a b k t.
Proof.
  intros Ha. unfold item3, transpose_021. rewrite list_lookup_fmap.
  destruct (a !! b) as [m|] eqn:Hm; simpl; [|done].
  apply (Forall_lookup_1 _ _ _ _ Ha) in Hm as [_ Hcols].
  by apply matrix_transpose_lookup with t0.
Qed.

Lemma pad_per_step_is_matrix {A} (pv : A) (a : list (list (list A))) k0 t0 p :
  Forall (is_matrix k0 t0) a →
  Forall (is_matrix k0 (t0 + Z.to_nat p)) (pad_per_step pv a p).
Proof.
  intros Ha. unfold pad_per_step. rewrite Forall_fmap.
  eapply Forall_impl; [exact Ha|]. intros m [Hrows Hcols]. split; simpl.
  - by rewrite length_fmap.
  - rewrite Forall_fmap. eapply Forall_impl; [exact Hcols|].
    intros row Hrow. simpl. rewrite length_app, length_replicate.
    by rewrite Hrow.
Qed.

Lemma stacked_is_matrix {A} (l a : list (list (list A))) :
  np_array l = Ok a → ∃ k0 t0, Forall (is_matrix k0 t0) a.
Proof.
  intros [-> Hl]%np_array_Ok. destruct l as [|m0 l].
  - exists 0, 0. constructor.
  - exists (length m0), (row_length m0). by apply Hl.
Qed.

(** C8: both spectrograms of an assembled batch are the step-padded
    arrays with the last two axes exchanged: element [[b][t][k]] of the
    emitted array is element [[b][k][t]] of the padded one. *)
Theorem collate_fn_transposes batch w w' out :
  collate_fn zero pad_value batch w = (w', Ok out) →
  ∃ text lens linear mel ids,
    extract zero batch w = (w, Ok (text, lens, linear, mel, ids)) ∧
    let pad_len :=
      step_pad_len (Z.of_nat (shape2 mel)) (outputs_per_step (self w)) in
    let padded_linear := pad_per_step pad_value linear pad_len in
    let padded_mel := pad_per_step pad_value mel pad_len in
    ∀ b t k : nat,
      item3 (linear_spectrogram out) b t k = item3 padded_linear b k t ∧
      item3 (mel_spectrogram out) b t k = item3 padded_mel b k t.
Proof.
  intros Hrun.
  apply collate_fn_Ok in Hrun
    as (-> & _ & text & lens & linear & mel & first & ids & Hex & ->).
  pose proof (extract_Ok _ _ _ _ _ _ _ _ _ Hex)
    as (_ & ds & _ & _ & _ & _ & _ & Hlin & Hmel & _).
  exists text, lens, linear, mel, (first :: ids). split; [done|].
  apply stacked_is_matrix in Hlin as (kl & tl & Hlin).
  apply stacked_is_matrix in Hmel as (km & tm & Hmel).
  intros b t k. cbn [linear_spectrogram mel_spectrogram]. split.
  - eapply transpose_021_lookup, pad_per_step_is_matrix, Hlin.
  - eapply transpose_021_lookup, pad_per_step_is_matrix, Hmel.
Qed.
End layout.

Lemma collate_fn_transposes_witness :
  ∃ out,
    collate_fn 0%Z 0%Z Instances.batch_ab (Instances.world0 [] 5)
      = (Instances.world0 [] 5, Ok out) ∧
    ∀ b t k : nat,
      item3 (linear_spectrogram out) b t k
        = item3 (pad_per_step 0%Z
                   (spectrogram Instances.frontend <$>
                      prepare_data 0%Z
                        (wav <$> [Instances.sample_a; Instances.sample_b]))
                   3) b k t.
Proof.
  destruct (collate_fn 0%Z 0%Z Instances.batch_ab (Instances.world0 [] 5))
    as [w' [out|e]] eqn:Hrun; [|vm_compute in Hrun; discriminate].
  destruct (collate_fn_transposes 0%Z 0%Z Instances.batch_ab
              (Instances.world0 [] 5) w' out Hrun)
    as (text & lens & linear & mel & ids & Hex & Helem).
  exists out. split.
  - vm_compute in Hrun. injection Hrun as <- <-. vm_compute. reflexivity.
  - vm_compute in Hex. injection Hex as <- <- <- <- <-.
    intros b t k. exact (proj1 (Helem b t k)).
Defined.

(** ** Sequence padding *)

Section padding.
Context {A : Type}.

Lemma max_list_lookup_le (ns : list nat) i n :
  ns !! i = Some n → n ≤ max_list ns.
Proof.
  intros Hn. apply max_list_elem_of_le. by eapply list_elem_of_lookup_2.
Qed.

Lemma SequencePadder_pad_row (fill : A) (L : list (list A)) i s :
  L !! i = Some s →
  let width := max_list (length <$> L) in
  length s ≤ width ∧
  (SequencePadder_pad fill L).1 !! i
    = Some (s ++ replicate (width - length s) fill) ∧
  (SequencePadder_pad fill L).2 !! i = Some (length s).
Proof.
  intros Hs width. simpl. rewrite !list_lookup_fmap, Hs. simpl.
  split; [|done].
  apply (max_list_lookup_le _ i). by rewrite list_lookup_fmap, Hs.
Qed.

Lemma SequencePadder_pad_width (fill : A) (L : list (list A)) :
  Forall (λ r, length r = max_list (length <$> L)) (SequencePadder_pad fill L).1.
Proof.
  simpl. apply Forall_forall. intros r Hr.
  apply list_elem_of_fmap in Hr as (s & -> & Hs).
  apply list_elem_of_lookup in Hs as [i Hs].
  rewrite length_app, length_replicate.
  pose proof (max_list_lookup_le (length <$> L) i (length s)) as Hle.
  rewrite list_lookup_fmap, Hs in Hle. specialize (Hle eq_refl). lia.
Qed.
End padding.

Lemma astype_int32_id (z : Z) : int32_range z → astype_int32 z = z.
Proof.
  unfold int32_range, astype_int32. intros Hz.
  rewrite Z.mod_small; lia.
Qed.

Lemma padded_text_in_range (texts : list (list Z)) :
  Forall (Forall int32_range) texts →
  padded_text texts = prepare_data 0%Z texts.
Proof.
  intros Hrange. unfold padded_text, prepare_data. simpl.
  rewrite <- list_fmap_compose. apply list_fmap_ext.
  intros i s Hs. simpl.
  rewrite fmap_app, fmap_replicate. f_equal.
  rewrite <- (list_fmap_id s) at 2. apply list_fmap_ext.
  intros j z Hz. simpl. apply astype_int32_id.
  apply (Forall_lookup_1 _ _ _ _ Hrange) in Hs.
  by apply (Forall_lookup_1 _ _ _ _ Hs) in Hz.
Qed.

Section symbols.
Context {F : Type} (zero pad_value : F).

Lemma Mapping_fmap_inj (ds ds' : list (sample (F := F))) :
  Mapping <$> ds = Mapping <$> ds' → ds = ds'.
Proof.
  revert ds'. induction ds as [|d ds IH]; intros [|d' ds']; simpl; try done.
  intros [= -> Hrest]. f_equal. by apply IH.
Qed.

(** C5: [SequencePadder.pad] returns a matrix whose width is the
    maximum length of the sequences, whose row [i] is sequence [i]
    followed by the fill value up to that width, and lengths that are
    the original lengths.  For a batch whose symbols are [np.int32]
    values, the symbol matrix of [collate_fn] is the sequences padded on
    the right with [0], and the symbol lengths are the original
    lengths. *)
Theorem collate_fn_pads_symbols {A} (fill : A) (L : list (list A))
    (ds : list (sample (F := F))) (w w' : world (F := F)) out :
  Forall (λ d, Forall int32_range (text d)) ds →
  collate_fn zero pad_value (Mapping <$> ds) w = (w', Ok out) →
  let width := max_list (length <$> L) in
  let texts := text <$> ds in
  let text_width := max_list (length <$> texts) in
  (length (SequencePadder_pad fill L).1 = length L ∧
   length (SequencePadder_pad fill L).2 = length L ∧
   Forall (λ r, length r = width) (SequencePadder_pad fill L).1 ∧
   ∀ i s, L !! i = Some s →
     length s ≤ width ∧
     (SequencePadder_pad fill L).1 !! i
       = Some (s ++ replicate (width - length s) fill) ∧
     (SequencePadder_pad fill L).2 !! i = Some (length s)) ∧
  (length (symbol_matrix out) = length ds ∧
   length (symbol_lengths out) = length ds ∧
   Forall (λ r, length r = text_width) (symbol_matrix out) ∧
   ∀ i s, texts !! i = Some s →
     symbol_matrix out !! i
       = Some (s ++ replicate (text_width - length s) 0%Z) ∧
     symbol_lengths out !! i = Some (Z.of_nat (length s))).
Proof.
  intros Hrange Hrun width texts text_width. split.
  - split; [simpl; by rewrite length_fmap|].
    split; [simpl; by rewrite length_fmap|].
    split; [apply SequencePadder_pad_width|].
    intros i s Hs. by apply SequencePadder_pad_row.
  - apply collate_fn_Ok in Hrun
      as (-> & _ & txt & lens & linear & mel & first & ids & Hex & ->).
    apply extract_Ok in Hex
      as (_ & ds' & Hds' & _ & _ & -> & -> & _).
    apply Mapping_fmap_inj in Hds' as <-.
    cbn [symbol_matrix symbol_lengths].
    rewrite padded_text_in_range by (by rewrite Forall_fmap).
    unfold text_lengths.
    split; [by rewrite length_prepare_data, length_fmap|].
    split; [by rewrite !length_fmap|].
    split; [apply SequencePadder_pad_width|].
    intros i s Hs.
    destruct (SequencePadder_pad_row 0%Z texts i s Hs) as (_ & Hrow & _).
    split; [exact Hrow|].
    unfold texts in Hs. by rewrite list_lookup_fmap, Hs.
Qed.
End symbols.

Lemma collate_fn_pads_symbols_witness :
  ∃ out,
    collate_fn 0%Z 0%Z Instances.batch_ab (Instances.world0 [] 5)
      = (Instances.world0 [] 5, Ok out) ∧
    symbol_matrix out !! 0 = Some [1; 2; 0; 0]%Z ∧
    symbol_lengths out !! 0 = Some 2%Z.
Proof.
  destruct (collate_fn 0%Z 0%Z Instances.batch_ab (Instances.world0 [] 5))
    as [w' [out|e]] eqn:Hrun; [|vm_compute in Hrun; discriminate].
  assert (Forall (λ d : sample (F := Z), Forall int32_range (text d))
            [Instances.sample_a; Instances.sample_b]) as Hrange.
  { repeat constructor; unfold int32_range; simpl; lia. }
  destruct (collate_fn_pads_symbols 0%Z 0%Z 0%Z []
              [Instances.sample_a; Instances.sample_b]
              (Instances.world0 [] 5) w' out Hrange Hrun)
    as (_ & _ & _ & _ & Hrows).
  exists out. split.
  - vm_compute in Hrun. injection Hrun as <- <-. vm_compute. reflexivity.
  - exact (Hrows 0 [1; 2]%Z eq_refl).
Defined.

(** ** Spectral frontend *)

Section frontend_facts.
Context {F Cx : Type}.
Variable apply_preemphasis : list F → list F.
Variable stft : list F → list (list Cx).
Variable magnitude : Cx → F.
Variable amp_to_db normalize : F → F.
Variable mel_basis : list (list F).
Variable dot : list F → list F → F.
(** The frame count for a number of samples, under the fixed hop and
    window settings. *)
Variable n_frames : nat → nat.

Hypothesis stft_frames :
  ∀ y, Forall (λ bins, length bins = n_frames (length y)) (stft y).
Hypothesis mel_bands : mel_basis ≠ [].

Abbreviation the_frontend :=
  (SpectralFrontend apply_preemphasis stft magnitude amp_to_db normalize
     mel_basis dot).

Lemma row_length_fmap {A B} (f : list A → list B) (m : list (list A)) :
  (∀ r, length (f r) = length r) →
  row_length (f <$> m) = row_length m.
Proof. intros Hf. destruct m as [|r m]; simpl; [done|]. apply Hf. Qed.

Lemma frontend_same_frames (y : list F) :
  row_length (spectrogram the_frontend y)
  = row_length (melspectrogram the_frontend y).
Proof.
  simpl. unfold frontend_spectrogram, frontend_melspectrogram.
  rewrite !row_length_fmap by (intros; apply length_fmap).
  unfold linear_to_mel.
  destruct mel_basis as [|filter filters]; [done|].
  unfold row_length at 2. simpl. rewrite length_fmap.
  pose proof (stft_frames (apply_preemphasis y)) as Hrect.
  destruct (stft (apply_preemphasis y)) as [|bins D]; [done|].
  rewrite (length_matrix_transpose _ (n_frames (length (apply_preemphasis y))));
    [|rewrite Forall_fmap; eapply Forall_impl; [exact Hrect|];
      intros r Hr; simpl; by rewrite length_fmap|done].
  apply Forall_cons in Hrect as [Hbins _]. exact Hbins.
Qed.

Lemma extract_frontend_Raise zero (batch : list (pyobj (F := F)))
    (w w' : world (F := F)) e :
  ap (self w) = the_frontend →
  extract zero batch w = (w', Raise e) →
  exn_class e ≠ "AssertionError".
Proof.
  intros Hap. unfold extract. run_M.
  destruct (comprehension (subscript wav) batch) as [wavs|e1] eqn:Hwav;
    [|intros [= _ <-]; by rewrite (comprehension_subscript_Raise _ _ _ Hwav)].
  destruct (comprehension (subscript item_idx) batch) as [ids'|e1] eqn:Hids;
    [|intros [= _ <-]; by rewrite (comprehension_subscript_Raise _ _ _ Hids)].
  destruct (comprehension (subscript text) batch) as [texts|e1] eqn:Htext;
    [|intros [= _ <-]; by rewrite (comprehension_subscript_Raise _ _ _ Htext)].
  destruct (np_max _) as [mx|e1] eqn:Hmax.
  2:{ intros [= _ <-]. destruct texts; simpl in Hmax; [|done].
      by injection Hmax as <-. }
  destruct (np_array (spectrogram _ <$> _)) as [linear|e1] eqn:Hlin;
    [|intros [= _ <-]; by rewrite (np_array_not_AssertionError _ _ Hlin)].
  destruct (np_array (melspectrogram _ <$> _)) as [mel|e1] eqn:Hmel;
    [|intros [= _ <-]; by rewrite (np_array_not_AssertionError _ _ Hmel)].
  destruct (decide _) as [Hshape|Hshape]; [done|].
  exfalso. apply Hshape.
  apply np_array_Ok in Hlin as [-> _], Hmel as [-> _].
  destruct (prepare_data zero wavs) as [|y ys]; [done|].
  unfold shape2. simpl. rewrite Hap. symmetry. apply frontend_same_frames.
Qed.

(** C6: under one configuration, [spectrogram] and [melspectrogram]
    of the frontend have the same time dimension for every waveform,
    and the assertion of [collate_fn] on the time dimensions of the
    stacked arrays never fails. *)
Theorem frontend_time_dimensions_agree :
  (∀ y : list F,
     row_length (spectrogram the_frontend y)
     = row_length (melspectrogram the_frontend y)) ∧
  (∀ zero pad_value (batch : list (pyobj (F := F))) (w w' : world (F := F)) e,
     ap (self w) = the_frontend →
     collate_fn zero pad_value batch w = (w', Raise e) →
     exn_class e ≠ "AssertionError").
Proof.
  split; [exact frontend_same_frames|].
  intros zero pad_value batch w w' e Hap. unfold collate_fn. run_M.
  destruct batch as [|[d|ty] batch]; [by intros [= _ <-]| |by intros [= _ <-]].
  destruct (extract zero _ w) as [w1 [[[[[txt lens] linear] mel] ids]|e1]] eqn:Hex.
  - destruct (decide _); [by intros [= _ <-]|].
    destruct ids; [by intros [= _ <-]|done].
  - intros [= _ <-]. by eapply extract_frontend_Raise.
Qed.
End frontend_facts.

Lemma frontend_time_dimensions_agree_witness :
  row_length (spectrogram Instances.frontend [1; 2; 3]%Z)
  = row_length (melspectrogram Instances.frontend [1; 2; 3]%Z).
Proof.
  apply (proj1 (frontend_time_dimensions_agree
                  Instances.apply_preemphasis Instances.stft Z.abs id id
                  Instances.mel_basis Instances.dot (λ n, n)
                  ltac:(intros y; repeat constructor; simpl;
                        by rewrite ?length_fmap)
                  ltac:(done))).
Defined.

(** ** Determinism *)

Section determinism.
Context {F : Type} (zero pad_value : F).
Implicit Types (batch : list (pyobj (F := F))) (w : world (F := F)).

(** Lines 81-95 neither change the dataset object nor print. *)
Lemma extract_state batch w : (extract zero batch w).1 = w.
Proof.
  unfold extract. run_M.
  repeat (match goal with
          | |- context [match ?r with Ok _ => _ | Raise _ => _ end] =>
              destruct r
          | |- context [decide ?P] => destruct (decide P)
          end; simpl; try done).
Qed.


End determinism.

(** ** Rejected inputs *)

Section rejected.
Context {F : Type} (zero pad_value : F).
Implicit Types (batch : list (pyobj (F := F))) (w : world (F := F)).

(** C9: when the first element of a non-empty batch is not a mapping,
    [collate_fn] raises a [TypeError] whose message ends with the type
    of that element, and returns no batch; a batch is only returned
    when the first element is a mapping. *)
Theorem collate_fn_rejects_non_mapping (type_repr : string) batch w :
  collate_fn zero pad_value (NotMapping type_repr :: batch) w
    = (w, Raise (Exn "TypeError"
                     ("batch must contain tensors, numbers, dicts or lists;" +:+
                      "                         found " +:+ type_repr))) ∧
  (∀ batch' w' out,
     collate_fn zero pad_value batch' w = (w', Ok out) →
     ∃ d rest, batch' = Mapping d :: rest).
Proof.
  split; [reflexivity|].
  intros batch' w' out. unfold collate_fn. run_M.
  destruct batch' as [|[d|ty] rest]; [done| |done].
  intros _. by exists d, rest.
Qed.

(** C3, as amended: [collate_fn] called with an empty list raises the
    [IndexError] of [batch[0]]; it returns no batch and changes
    nothing. *)
Theorem collate_fn_empty_IndexError w :
  collate_fn zero pad_value [] w
    = (w, Raise (Exn "IndexError" "list index out of range")).
Proof. reflexivity. Qed.
End rejected.

(** C3, as stated, fails: the exception raised for the empty list is not
    an [EmptyBatchError]. *)
Lemma collate_fn_empty_not_EmptyBatchError :
  ¬ ∃ w' e,
      collate_fn (F := Z) 0%Z 0%Z [] (Instances.world0 [] 5) = (w', Raise e) ∧
      exn_class e = "EmptyBatchError".
Proof. intros (w' & e & [= _ <-] & Hclass). discriminate Hclass. Qed.

(** ** Loading an example *)

Section loading.
Context {F : Type}.
Variable librosa_load : string → Z → result (list F * Z).

(** A decoding failure that is a [RuntimeError] does not leave
    [load_wav]: the file name is printed and [None] is returned. *)
Lemma load_wav_RuntimeError (filename : string) (w : world (F := F)) e :
  librosa_load filename (sample_rate (self w)) = Raise e →
  is_RuntimeError e = true →
  load_wav librosa_load filename w
    = ({| self := self w;
          stdout := stdout w ++ [Print " !! Cannot read file : {}" (PStr filename)] |},
       Ok None).
Proof.
  intros Hload Hcatch. unfold load_wav. run_M. rewrite Hload, Hcatch.
  reflexivity.
Qed.

(** Any other exception of the decoder escapes as it is. *)
Lemma load_wav_other_exception (filename : string) (w : world (F := F)) e :
  librosa_load filename (sample_rate (self w)) = Raise e →
  is_RuntimeError e = false →
  load_wav librosa_load filename w = (w, Raise e).
Proof.
  intros Hload Hcatch. unfold load_wav. run_M. by rewrite Hload, Hcatch.
Qed.
End loading.

(** C4, on a file that the decoder cannot read: [load_wav] reports no
    failure, it prints and returns [None] in place of the waveform, and
    [__getitem__] then fails with the [TypeError] of [None[0]], which
    names neither the failure nor the file. *)
Theorem load_wav_swallows_decode_failure :
  let w := Instances.world0 Instances.rows2 5 in
  let filename := "LJSpeech-1.0/wavs/LJ001-0002.wav" in
  let printed := [Print " !! Cannot read file : {}" (PStr filename)] in
  Instances.librosa_load filename (sample_rate (self w))
    = Raise (Exn "RuntimeError" "could not decode the file") ∧
  load_wav Instances.librosa_load filename w
    = ({| self := self w; stdout := printed |}, Ok None) ∧
  __getitem__ Instances.librosa_load Instances.text_to_sequence
      Instances.os_path_join 1 w
    = ({| self := self w; stdout := printed |},
       Raise (Exn "TypeError" "'NoneType' object is not subscriptable")).
Proof. repeat split; vm_compute; reflexivity. Qed.

(** ** The length-sorted example table *)

Section sort_frames.
Context {F : Type}.
Implicit Types (E : list (list string)) (w : world (F := F)).

Lemma np_max_Ok (l : list Z) : l ≠ [] → ∃ m, np_max l = Ok m.
Proof. destruct l; [done|]. by eexists. Qed.

Lemma np_min_Ok (l : list Z) : l ≠ [] → ∃ m, np_min l = Ok m.
Proof. destruct l; [done|]. by eexists. Qed.

Lemma comprehension_len_ins_1 E :
  Forall (λ fields, 2 ≤ length fields) E →
  comprehension len_ins_1 (Some <$> E) = Ok (lengths_of E).
Proof.
  induction 1 as [|fields E Hfields _ IH]; [done|].
  rewrite fmap_cons. cbn [comprehension]. rewrite IH.
  unfold len_ins_1, lengths_of, transcript_length. rewrite fmap_cons.
  destruct (fields !! 1) as [transcript|] eqn:Ht; [done|].
  apply lookup_ge_None in Ht. lia.
Qed.

Lemma fill_new_frames_spec E (new_frames : list row) (i : nat) (idxs : list nat) :
  Forall (λ idx, idx < length E) idxs →
  i + length idxs ≤ length new_frames →
  fill_new_frames (Some <$> E) new_frames i idxs
    = Ok (take i new_frames
          ++ (Some <$> ((λ idx, E !!! idx) <$> idxs))
          ++ drop (i + length idxs) new_frames).
Proof.
  intros Hidxs. revert new_frames i.
  induction Hidxs as [|idx idxs Hidx _ IH]; intros new_frames i Hlen.
  - simpl. by rewrite Nat.add_0_r, take_drop.
  - simpl in Hlen. cbn [fill_new_frames].
    rewrite list_lookup_fmap, (list_lookup_lookup_total_lt E idx Hidx).
    simpl. destruct (decide (i < length new_frames)) as [Hi|]; [|lia].
    rewrite IH by (rewrite length_insert; lia).
    f_equal.
    rewrite (take_S_r _ _ (Some (E !!! idx)))
      by (by apply list_lookup_insert_eq).
    rewrite take_insert_ge by lia.
    rewrite drop_insert_lt by lia.
    rewrite <- app_assoc. simpl.
    by replace (i + S (length idxs)) with (S (i + length idxs)) by lia.
Qed.

Lemma fmap_lookup_total_seq E :
  (λ idx, E !!! idx) <$> seq 0 (length E) = E.
Proof.
  apply list_eq. intros i. rewrite list_lookup_fmap.
  destruct (decide (i < length E)) as [Hi|Hi].
  - rewrite lookup_seq_lt by done. simpl.
    by rewrite (list_lookup_lookup_total_lt E i Hi).
  - rewrite lookup_seq_ge by lia. simpl. symmetry.
    apply lookup_ge_None. lia.
Qed.

Lemma argsort_in_range (v : list Z) (idxs : list nat) :
  idxs ≡ₚ seq 0 (length v) → Forall (λ idx, idx < length v) idxs.
Proof.
  intros Hperm. rewrite Hperm. apply Forall_seq. lia.
Qed.

(** C2, as amended: for a non-empty example table whose rows have a
    transcript, and an [argsort] result that sorts the transcript
    lengths, [_sort_frames] replaces the table by a permutation of it
    that is sorted non-decreasing by transcript length. *)
Theorem _sort_frames_sorted_permutation (np_argsort : list Z → list nat) E w :
  frames (self w) = Some <$> E →
  E ≠ [] →
  Forall (λ fields, 2 ≤ length fields) E →
  is_argsort (lengths_of E) (np_argsort (lengths_of E)) →
  ∃ w' E',
    _sort_frames np_argsort w = (w', Ok tt) ∧
    frames (self w') = Some <$> E' ∧
    E' ≡ₚ E ∧
    StronglySorted by_length E'.
Proof.
  intros Hframes Hne Hfields [Hperm Hsorted].
  set (idxs := np_argsort (lengths_of E)) in *.
  assert (length (lengths_of E) = length E) as Hlen
    by (unfold lengths_of; by rewrite length_fmap).
  rewrite Hlen in Hperm.
  assert (Forall (λ idx, idx < length E) idxs) as Hrange.
  { rewrite Hperm. apply Forall_seq. lia. }
  assert (length idxs = length E) as Hidxs.
  { by rewrite Hperm, length_seq. }
  assert (lengths_of E ≠ []) as Hv.
  { intros Hnil. apply (f_equal length) in Hnil. rewrite Hlen in Hnil.
    by destruct E. }
  destruct (np_max_Ok _ Hv) as [longest Hmax].
  destruct (np_min_Ok _ Hv) as [shortest Hmin].
  eexists _, ((λ idx, E !!! idx) <$> idxs).
  split; [|split; [|split]].
  - unfold _sort_frames. run_M. rewrite Hframes.
    rewrite (comprehension_len_ins_1 E Hfields), Hmax, Hmin.
    fold idxs. rewrite Hlen.
    rewrite (fill_new_frames_spec E _ 0 idxs Hrange)
      by (rewrite length_replicate; lia).
    rewrite Hidxs. simpl take.
    rewrite (drop_ge (replicate _ _)) by (rewrite length_replicate; lia).
    rewrite app_nil_r. reflexivity.
  - reflexivity.
  - rewrite Hperm. by rewrite fmap_lookup_total_seq.
  - apply (StronglySorted_fmap (λ idx, E !!! idx)
             (λ a b, a < length E ∧ b < length E ∧
                     (lengths_of E !!! a ≤ lengths_of E !!! b)%Z)).
    + intros a b (Ha & Hb & Hab). unfold by_length.
      unfold lengths_of in Hab.
      rewrite (list_lookup_total_fmap _ E a Ha) in Hab.
      rewrite (list_lookup_total_fmap _ E b Hb) in Hab. lia.
    + clear -Hsorted Hrange.
      induction idxs as [|a idxs IH]; [constructor|].
      rewrite fmap_cons in Hsorted.
      apply StronglySorted_cons in Hsorted as [Hhd Htl].
      apply Forall_cons in Hrange as [Ha Hrange].
      constructor; [by apply IH|].
      rewrite Forall_fmap in Hhd.
      apply Forall_forall. intros b Hb.
      rewrite Forall_forall in Hhd, Hrange.
      repeat split; auto. by apply Hhd.
Qed.
End sort_frames.

Lemma _sort_frames_sorted_permutation_witness :
  ∃ w' E',
    _sort_frames NumPy.argsort (Instances.world0 Instances.rows18 5) = (w', Ok tt) ∧
    frames (self w') = Some <$> E' ∧
    E' ≡ₚ Instances.examples18 ∧
    StronglySorted by_length E'.
Proof.
  apply (_sort_frames_sorted_permutation NumPy.argsort Instances.examples18
           (Instances.world0 Instances.rows18 5)).
  - reflexivity.
  - discriminate.
  - apply (bool_decide_unpack _). vm_compute. exact I.
  - split; apply (bool_decide_unpack _); vm_compute; exact I.
Defined.

(** C2, as stated, fails: on eighteen rows whose transcripts have the same
    length, the default [argsort] exchanges rows, so ties do not keep
    their order; and on the empty table [_sort_frames] raises the
    [ValueError] of [np.max] instead of producing an empty table. *)
Lemma _sort_frames_not_stable :
  (∃ w' E',
     _sort_frames NumPy.argsort (Instances.world0 Instances.rows18 5)
       = (w', Ok tt) ∧
     frames (self w') = Some <$> E' ∧
     ¬ keeps_tie_order Instances.examples18 E') ∧
  (∃ w',
     _sort_frames NumPy.argsort (Instances.world0 [] 5)
       = (w', Raise (Exn "ValueError"
                         ("zero-size array to reduction operation maximum" +:+
                          " which has no identity")))).
Proof.
  split.
  - eexists _, ((λ i, Instances.examples18 !!! i) <$>
                  [0; 15; 14; 13; 12; 11; 10; 9; 8; 7; 6; 5; 4; 3; 2; 1; 16; 17]).
    split; [vm_compute; reflexivity|]. split; [vm_compute; reflexivity|].
    intros Hstable.
    destruct (Hstable 1 2 (Instances.examples18 !!! 15) (Instances.examples18 !!! 14))
      as (i0 & j0 & Hlt & Hi0 & Hj0); [lia|reflexivity|reflexivity|reflexivity|].
    assert (NoDup Instances.examples18) as Hnodup
      by (apply (bool_decide_unpack _); vm_compute; exact I).
    assert (i0 = 15) as -> by (by apply (NoDup_lookup _ _ _ _ Hnodup Hi0)).
    assert (j0 = 14) as -> by (by apply (NoDup_lookup _ _ _ _ Hnodup Hj0)).
    lia.
  - eexists. vm_compute. reflexivity.
Qed.

(** * Further properties *)

(** ** Fields of a manifest line *)

Lemma split_on_not_nil (sep : Ascii.ascii) (s : string) : split_on sep s ≠ [].
Proof.
  destruct s as [|c s]; simpl; [done|].
  destruct (decide (c = sep)); [done|]. by destruct (split_on sep s).
Qed.

Lemma join_cons (sep field : string) (fields : list string) :
  fields ≠ [] → join sep (field :: fields) = field +:+ sep +:+ join sep fields.
Proof. by destruct fields. Qed.

(** X1: the fields of [line.split(sep)], joined again with the separator,
    give back the line. *)
Theorem join_split_on (sep : Ascii.ascii) (s : string) :
  join (String sep EmptyString) (split_on sep s) = s.
Proof.
  induction s as [|c s IH]; [done|].
  pose proof (split_on_not_nil sep s) as Hne.
  cbn [split_on]. destruct (decide (c = sep)) as [->|Hc].
  - rewrite join_cons by done. rewrite IH. reflexivity.
  - destruct (split_on sep s) as [|field fields]; [done|].
    destruct fields as [|field' fields].
    + simpl in *. by rewrite IH.
    + rewrite join_cons by done. rewrite join_cons in IH by done.
      rewrite <- IH. reflexivity.
Qed.

Lemma length_split_on_count (sep : Ascii.ascii) (s : string) :
  length (split_on sep s) = S (count_char sep s).
Proof.
  induction s as [|c s IH]; [done|].
  cbn [split_on count_char]. destruct (decide (c = sep)); simpl.
  - by rewrite IH.
  - pose proof (split_on_not_nil sep s).
    destruct (split_on sep s) as [|field fields]; [done|]. exact IH.
Qed.

(** X2: a line splits into one field more than it has separators; it has
    a transcript, the field of index 1, exactly when it contains a
    separator. *)
Theorem length_split_on (sep : Ascii.ascii) (s : string) :
  length (split_on sep s) = S (count_char sep s) ∧
  (is_Some (split_on sep s !! 1) ↔ 1 ≤ count_char sep s).
Proof.
  split; [apply length_split_on_count|].
  rewrite lookup_lt_is_Some, length_split_on_count. lia.
Qed.

(** ** Minimal step padding *)

(** X3: for [outputs_per_step >= 1], the padded frame count
    [timesteps + pad_len] is the least multiple of [outputs_per_step]
    above [timesteps]. *)
Theorem step_pad_len_least (timesteps r m : Z) :
  (1 ≤ r)%Z → (timesteps < m)%Z → (m `mod` r = 0)%Z →
  ((timesteps + step_pad_len timesteps r) `mod` r = 0)%Z ∧
  (timesteps < timesteps + step_pad_len timesteps r ≤ m)%Z.
Proof.
  intros Hr Hm Hdiv.
  split; [by apply step_pad_len_multiple|].
  pose proof (step_pad_len_range timesteps r Hr) as Hrange.
  split; [lia|].
  unfold step_pad_len. destruct (decide _) as [Hne|Heq]; [|lia].
  pose proof (Z.div_mod (timesteps + 1) r ltac:(lia)) as Hq.
  pose proof (Z.mod_pos_bound (timesteps + 1) r ltac:(lia)) as Hbound.
  pose proof (Z.div_mod m r ltac:(lia)) as Hk. rewrite Hdiv in Hk.
  assert ((timesteps + 1) / r < m / r)%Z by nia.
  nia.
Qed.

Lemma step_pad_len_least_witness :
  ((9 + step_pad_len 9 5) `mod` 5 = 0)%Z ∧ (9 < 9 + step_pad_len 9 5 ≤ 20)%Z.
Proof. apply (step_pad_len_least 9 5 20); [lia|lia|reflexivity]. Defined.

(** ** What [load_wav] lets through *)

Section load_wav_facts.
Context {F : Type}.
Variable librosa_load : string → Z → result (list F * Z).
Implicit Types (w : world (F := F)).

End load_wav_facts.


(** ** What [_sort_frames] keeps *)

Section sort_frames_facts.
Context {F : Type}.
Variable np_argsort : list Z → list nat.
Implicit Types (E : list (list string)) (w : world (F := F)).

Lemma length_comprehension {A B} (f : A → result B) (l : list A) (l' : list B) :
  comprehension f l = Ok l' → length l' = length l.
Proof.
  revert l'. induction l as [|x l IH]; simpl; intros l'.
  - by intros [= <-].
  - destruct (f x) as [y|e]; simpl; [|done].
    destruct (comprehension f l) as [ys|e]; simpl; [|done].
    intros [= <-]. simpl. by rewrite (IH ys).
Qed.

Lemma length_fill_new_frames (old_frames new_frames res : list row) i idxs :
  fill_new_frames old_frames new_frames i idxs = Ok res →
  length res = length new_frames.
Proof.
  revert new_frames i. induction idxs as [|idx idxs IH]; intros new_frames i; simpl.
  - by intros [= <-].
  - destruct (old_frames !! idx) as [ins|]; [|done].
    destruct (decide (i < length new_frames)); [|done].
    intros Hres. apply IH in Hres. by rewrite length_insert in Hres.
Qed.

(** The run of [_sort_frames], step by step. *)
Lemma _sort_frames_cases w :
  (∃ e, comprehension len_ins_1 (frames (self w)) = Raise e ∧
        _sort_frames np_argsort w = (w, Raise e)) ∨
  (∃ lengths, comprehension len_ins_1 (frames (self w)) = Ok lengths ∧
     ((lengths = [] ∧
       _sort_frames np_argsort w = (w, Raise (ValueError_reduction "maximum"))) ∨
      (∃ longest shortest,
         np_max lengths = Ok longest ∧ np_min lengths = Ok shortest ∧
         let out := stdout w ++
           [Print " | > Max length sequence {}" (PInt longest);
            Print " | > Min length sequence {}" (PInt shortest);
            Print " | > Avg length sequence {}"
                  (PMean (foldr Z.add 0%Z lengths) (length lengths))] in
         match fill_new_frames (frames (self w))
                 (replicate (length lengths) None) 0 (np_argsort lengths) with
         | Ok new_frames =>
             _sort_frames np_argsort w
               = ({| self := with_frames new_frames (self w); stdout := out |}, Ok tt)
         | Raise e =>
             _sort_frames np_argsort w
               = ({| self := self w; stdout := out |}, Raise e)
         end))).
Proof.
  unfold _sort_frames. run_M.
  destruct (comprehension len_ins_1 (frames (self w))) as [lengths|e]; [|left; by exists e].
  right. exists lengths. split; [done|].
  destruct lengths as [|x lengths]; [left; done|]. right.
  cbn [np_max np_min]. eexists _, _. split; [done|]. split; [done|].
  cbv zeta. simpl. rewrite <- !app_assoc. simpl.
  destruct (fill_new_frames _ _ _ _); reflexivity.
Qed.

(** X5: [_sort_frames] only replaces the table, by one of the same
    length: when it returns, [__len__] answers as before and every other
    field of the object is as it was. *)
Theorem _sort_frames_keeps_length w w' :
  _sort_frames np_argsort w = (w', Ok tt) →
  self w' = with_frames (frames (self w')) (self w) ∧
  length (frames (self w')) = length (frames (self w)) ∧
  (__len__ w').2 = (__len__ w).2.
Proof.
  intros Hrun.
  assert (self w' = with_frames (frames (self w')) (self w) ∧
          length (frames (self w')) = length (frames (self w))) as [Hself Hlen].
  { destruct (_sort_frames_cases w) as [(e & _ & Hraise)|(lengths & Hlens & Hrest)].
    { rewrite Hraise in Hrun. discriminate Hrun. }
    destruct Hrest as [[_ Hraise]|(longest & shortest & _ & _ & Hfill)].
    { rewrite Hraise in Hrun. discriminate Hrun. }
    cbv zeta in Hfill.
    destruct (fill_new_frames _ _ _ _) as [new_frames|e] eqn:Hnew;
      rewrite Hfill in Hrun; [|discriminate Hrun].
    injection Hrun as <-. simpl. split; [done|].
    apply length_fill_new_frames in Hnew.
    rewrite Hnew, length_replicate. by apply length_comprehension in Hlens. }
  split; [done|]. split; [done|].
  unfold __len__. run_M. by rewrite Hlen.
Qed.

(** X6: when [_sort_frames] raises, the dataset object is as it was. *)
Theorem _sort_frames_raise_keeps_self w w' e :
  _sort_frames np_argsort w = (w', Raise e) → self w' = self w.
Proof.
  intros Hrun.
  destruct (_sort_frames_cases w) as [(e' & _ & Hraise)|(lengths & Hlens & Hrest)].
  { rewrite Hraise in Hrun. by injection Hrun as <- _. }
  destruct Hrest as [[_ Hraise]|(longest & shortest & _ & _ & Hfill)].
  { rewrite Hraise in Hrun. by injection Hrun as <- _. }
  cbv zeta in Hfill.
  destruct (fill_new_frames _ _ _ _) as [new_frames|e'];
    rewrite Hfill in Hrun; [discriminate Hrun|].
  by injection Hrun as <- _.
Qed.

Lemma comprehension_len_ins_1_short E :
  Exists (λ fields, length fields < 2) E →
  comprehension len_ins_1 (Some <$> E) = Raise IndexError_list.
Proof.
  induction 1 as [fields E Hshort|fields E _ IH]; rewrite fmap_cons;
    cbn [comprehension].
  - unfold len_ins_1.
    rewrite (proj2 (lookup_ge_None fields 1)) by lia. reflexivity.
  - rewrite IH. unfold len_ins_1.
    destruct (fields !! 1); reflexivity.
Qed.

Lemma _sort_frames_short E w :
  frames (self w) = Some <$> E →
  Exists (λ fields, length fields < 2) E →
  _sort_frames np_argsort w = (w, Raise IndexError_list).
Proof.
  intros Hframes Hshort.
  destruct (_sort_frames_cases w) as [(e & Hlens & Hraise)|(lengths & Hlens & _)];
    rewrite Hframes, (comprehension_len_ins_1_short E Hshort) in Hlens.
  - injection Hlens as <-. exact Hraise.
  - discriminate Hlens.
Qed.

(** X7: a table with a row that has no transcript field (fewer than two
    fields) is rejected with an [IndexError], before anything is printed
    or changed. *)
Theorem _sort_frames_short_row E w :
  frames (self w) = Some <$> E →
  Exists (λ fields, length fields < 2) E →
  _sort_frames np_argsort w
    = (w, Raise (Exn "IndexError" "list index out of range")).
Proof. apply _sort_frames_short. Qed.
End sort_frames_facts.

Lemma _sort_frames_keeps_length_witness :
  ∃ w', _sort_frames NumPy.argsort (Instances.world0 Instances.rows18 5) = (w', Ok tt) ∧
        length (frames (self w')) = 18.
Proof.
  destruct (_sort_frames NumPy.argsort (Instances.world0 Instances.rows18 5))
    as [w' [[]|e]] eqn:Hrun; [|vm_compute in Hrun; discriminate].
  exists w'. split; [done|].
  destruct (_sort_frames_keeps_length NumPy.argsort _ _ Hrun) as (_ & Hlen & _).
  rewrite Hlen. reflexivity.
Defined.

Lemma _sort_frames_raise_keeps_self_witness :
  ∃ w' e, _sort_frames NumPy.argsort (Instances.world0 [None] 5) = (w', Raise e) ∧
          self w' = Instances.dataset [None] 5.
Proof.
  destruct (_sort_frames NumPy.argsort (Instances.world0 [None] 5))
    as [w' [[]|e]] eqn:Hrun; [vm_compute in Hrun; discriminate|].
  exists w', e. split; [done|].
  exact (_sort_frames_raise_keeps_self NumPy.argsort _ _ _ Hrun).
Defined.

Lemma _sort_frames_short_row_witness :
  _sort_frames NumPy.argsort
    (Instances.world0 [Some ["LJ001-0001"; "Printing"]; Some ["LJ001-0002"]] 5)
  = (Instances.world0 [Some ["LJ001-0001"; "Printing"]; Some ["LJ001-0002"]] 5,
     Raise (Exn "IndexError" "list index out of range")).
Proof.
  apply (_sort_frames_short_row NumPy.argsort
           [["LJ001-0001"; "Printing"]; ["LJ001-0002"]]).
  - reflexivity.
  - apply Exists_cons_tl, Exists_cons_hd. simpl. lia.
Defined.

(** ** Loading one example *)

Section getitem_facts.
Context {F : Type}.
Variable librosa_load : string → Z → result (list F * Z).
Variable text_to_sequence : string → list string → list Z.
Variable os_path_join : string → string → string.
Implicit Types (w : world (F := F)) (d : sample (F := F)).

Abbreviation getitem := (__getitem__ librosa_load text_to_sequence os_path_join).

Lemma np_asarray_int32_Ok (l l' : list Z) :
  np_asarray_int32 l = Ok l' → l' = l ∧ Forall int32_range l.
Proof.
  unfold np_asarray_int32. case_bool_decide; [|done]. by intros [= <-].
Qed.

(** What a returned sample was made from. *)
Lemma getitem_Ok_inv (idx : nat) w w' d :
  getitem idx w = (w', Ok d) →
  w' = w ∧
  ∃ fields transcript sr,
    frames (self w) !! idx = Some (Some fields) ∧
    fields !! 0 = Some (item_idx d) ∧
    fields !! 1 = Some transcript ∧
    text d = text_to_sequence transcript [cleaners (self w)] ∧
    Forall int32_range (text d) ∧
    librosa_load (os_path_join (root_dir (self w)) (item_idx d) +:+ ".wav")
                 (sample_rate (self w)) = Ok (wav d, sr).
Proof.
  unfold __getitem__, load_wav, frames_idx. run_M.
  destruct (frames (self w) !! idx) as [[fields|]|]; [|done|done].
  destruct (fields !! 0) as [name|] eqn:Hname; [|done].
  destruct (fields !! 1) as [transcript|] eqn:Htr; [|done].
  destruct (np_asarray_int32 _) as [symbols|e] eqn:Hsym; [|done].
  apply np_asarray_int32_Ok in Hsym as [-> Hrange].
  destruct (librosa_load _ _) as [[y sr]|e] eqn:Hload.
  - intros [= <- <-]. split; [done|].
    exists fields, transcript, sr. done.
  - destruct (is_RuntimeError e); [|done]. simpl. done.
Qed.


(** X9: an index past the end of the table raises the [IndexError] of
    [self.frames[idx]]; the decoder is not called and nothing is printed. *)
Theorem __getitem___out_of_range (idx : nat) w :
  length (frames (self w)) ≤ idx →
  __getitem__ librosa_load text_to_sequence os_path_join idx w
    = (w, Raise (Exn "IndexError" "list index out of range")).
Proof.
  intros Hidx. unfold __getitem__, frames_idx. run_M.
  by rewrite (proj2 (lookup_ge_None _ _) Hidx).
Qed.
End getitem_facts.


Lemma __getitem___out_of_range_witness :
  __getitem__ Instances.librosa_load Instances.text_to_sequence
    Instances.os_path_join 2 (Instances.world0 Instances.rows2 5)
  = (Instances.world0 Instances.rows2 5,
     Raise (Exn "IndexError" "list index out of range")).
Proof.
  apply (__getitem___out_of_range Instances.librosa_load
           Instances.text_to_sequence Instances.os_path_join 2).
  simpl. lia.
Defined.

(** ** Batches of loaded examples *)

Section collate_extras.
Context {F : Type} (zero pad_value : F).
Variable librosa_load : string → Z → result (list F * Z).
Variable text_to_sequence : string → list string → list Z.
Variable os_path_join : string → string → string.
Implicit Types (batch : list (pyobj (F := F))) (w : world (F := F))
  (ds : list (sample (F := F))).

(** X10: for a batch of samples that [__getitem__] returned, the cast to
    [np.int32] in [collate_fn] changes no symbol: row [i] of the symbol
    matrix is the symbol sequence of example [i] followed by zeros up to
    the longest sequence, and the lengths are the original ones. *)
Theorem collate_fn_of_loaded_samples ds w w' out :
  Forall (λ d, ∃ idx w0 w1,
            __getitem__ librosa_load text_to_sequence os_path_join idx w0
            = (w1, Ok d)) ds →
  collate_fn zero pad_value (Mapping <$> ds) w = (w', Ok out) →
  let width := max_list ((λ d, length (text d)) <$> ds) in
  ∀ i d, ds !! i = Some d →
    symbol_matrix out !! i
      = Some (text d ++ replicate (width - length (text d)) 0%Z) ∧
    symbol_lengths out !! i = Some (Z.of_nat (length (text d))).
Proof.
  intros Hloaded Hrun width i d Hd.
  assert (Forall (Forall int32_range) (text <$> ds)) as Hrange.
  { rewrite Forall_fmap. eapply Forall_impl; [exact Hloaded|].
    intros d' (idx & w0 & w1 & Hget). simpl.
    apply getitem_Ok_inv in Hget as (_ & fields & transcript & sr & Hget).
    tauto. }
  apply collate_fn_Ok in Hrun
    as (-> & _ & txt & lens & linear & mel & first & ids & Hex & ->).
  apply extract_Ok in Hex as (_ & ds' & Hds' & _ & _ & -> & -> & _).
  apply Mapping_fmap_inj in Hds' as <-.
  cbn [symbol_matrix symbol_lengths].
  rewrite (padded_text_in_range _ Hrange).
  assert ((text <$> ds) !! i = Some (text d)) as Htext
    by (by rewrite list_lookup_fmap, Hd).
  destruct (SequencePadder_pad_row 0%Z (text <$> ds) i (text d) Htext)
    as (_ & Hrow & _).
  split.
  - unfold prepare_data. rewrite Hrow. unfold width.
    by rewrite <- list_fmap_compose.
  - unfold text_lengths. by rewrite list_lookup_fmap, Htext.
Qed.

(** X11: the identifier that [collate_fn] returns with the batch is the
    ['item_idx'] of the first example. *)
Theorem collate_fn_representative (d : sample (F := F)) batch w w' out :
  collate_fn zero pad_value (Mapping d :: batch) w = (w', Ok out) →
  representative_identifier out = item_idx d.
Proof.
  intros Hrun.
  apply collate_fn_Ok in Hrun
    as (-> & _ & txt & lens & linear & mel & first & ids & Hex & ->).
  apply extract_Ok in Hex as (_ & ds & Hds & _ & Hids & _).
  destruct ds as [|d' ds]; [done|].
  rewrite !fmap_cons in *. injection Hds as <- _. by injection Hids as -> _.
Qed.

(** X12: with [outputs_per_step = 0], [collate_fn] never returns a
    batch: when the extraction of lines 81-95 succeeds, the modulo of
    line 98 raises [ZeroDivisionError]. *)
Theorem collate_fn_zero_step batch w :
  outputs_per_step (self w) = 0%Z →
  (∀ w' out, collate_fn zero pad_value batch w ≠ (w', Ok out)) ∧
  (∀ extracted, extract zero batch w = (w, Ok extracted) →
     collate_fn zero pad_value batch w
       = (w, Raise (Exn "ZeroDivisionError" "integer division or modulo by zero"))).
Proof.
  intros Hr. split.
  - intros w' out Hrun. by apply collate_fn_Ok in Hrun as (_ & Hne & _).
  - intros [[[[txt lens] linear] mel] ids] Hex.
    pose proof (extract_Ok _ _ _ _ _ _ _ _ _ Hex) as (_ & ds & -> & Hds & _).
    destruct ds as [|d ds]; [done|]. rewrite fmap_cons in *.
    unfold collate_fn. run_M. rewrite Hex.
    by destruct (decide (outputs_per_step (self w) = 0%Z)).
Qed.

(** X13: [collate_fn] reads [self.ap] and [self.outputs_per_step] only:
    two dataset objects that agree on them, whatever their tables and
    whatever was printed, give the same result for a batch. *)
Theorem collate_fn_reads_ap_and_step batch w1 w2 :
  ap (self w1) = ap (self w2) →
  outputs_per_step (self w1) = outputs_per_step (self w2) →
  (collate_fn zero pad_value batch w1).2 = (collate_fn zero pad_value batch w2).2.
Proof.
  intros Hap Hr.
  assert ((extract zero batch w1).2 = (extract zero batch w2).2) as Hex.
  { unfold extract. run_M. rewrite Hap.
    repeat (match goal with
            | |- context [match ?r with Ok _ => _ | Raise _ => _ end] =>
                destruct r
            | |- context [decide ?P] => destruct (decide P)
            end; simpl; try done). }
  pose proof (extract_state zero batch w1) as Hst1.
  pose proof (extract_state zero batch w2) as Hst2.
  unfold collate_fn. run_M. destruct batch as [|[d|ty] batch]; [done| |done].
  destruct (extract zero _ w1) as [w1' r1]. destruct (extract zero _ w2) as [w2' r2].
  simpl in *. subst. rewrite Hr.
  destruct r2 as [[[[[txt lens] linear] mel] ids]|e]; [|done].
  destruct (decide _); [done|]. by destruct ids.
Qed.
End collate_extras.

Lemma collate_fn_of_loaded_samples_witness :
  ∃ out,
    collate_fn 0%Z 0%Z
      [Mapping {| text := [1; 1; 1; 1; 1]%Z; wav := [0; 0; 0]%Z;
                  item_idx := "LJ001-0001" |}]
      (Instances.world0 Instances.rows2 5)
    = (Instances.world0 Instances.rows2 5, Ok out) ∧
    symbol_matrix out !! 0 = Some [1; 1; 1; 1; 1]%Z ∧
    symbol_lengths out !! 0 = Some 5%Z.
Proof.
  set (d := {| text := [1; 1; 1; 1; 1]%Z; wav := [0; 0; 0]%Z;
               item_idx := "LJ001-0001" |} : sample (F := Z)).
  destruct (collate_fn 0%Z 0%Z [Mapping d] (Instances.world0 Instances.rows2 5))
    as [w' [out|e]] eqn:Hrun; [|vm_compute in Hrun; discriminate].
  assert (Forall (λ d : sample (F := Z), ∃ idx w0 w1,
            __getitem__ Instances.librosa_load Instances.text_to_sequence
              Instances.os_path_join idx w0 = (w1, Ok d)) [d]) as Hloaded.
  { constructor; [|constructor].
    exists 0, (Instances.world0 Instances.rows2 5),
           (Instances.world0 Instances.rows2 5).
    vm_compute. reflexivity. }
  pose proof (collate_fn_of_loaded_samples 0%Z 0%Z Instances.librosa_load
                Instances.text_to_sequence Instances.os_path_join [d]
                _ w' out Hloaded Hrun 0 d eq_refl) as Hrow.
  exists out. split.
  - vm_compute in Hrun. injection Hrun as <- <-. vm_compute. reflexivity.
  - exact Hrow.
Defined.

Lemma collate_fn_representative_witness :
  ∃ out,
    collate_fn 0%Z 0%Z Instances.batch_ab (Instances.world0 [] 5)
      = (Instances.world0 [] 5, Ok out) ∧
    representative_identifier out = "a".
Proof.
  destruct (collate_fn 0%Z 0%Z Instances.batch_ab (Instances.world0 [] 5))
    as [w' [out|e]] eqn:Hrun; [|vm_compute in Hrun; discriminate].
  pose proof (collate_fn_representative 0%Z 0%Z Instances.sample_a
                [Mapping Instances.sample_b] _ w' out Hrun) as Hid.
  exists out. split.
  - vm_compute in Hrun. injection Hrun as <- <-. vm_compute. reflexivity.
  - exact Hid.
Defined.

Lemma collate_fn_zero_step_witness :
  collate_fn 0%Z 0%Z Instances.batch_ab (Instances.world0 [] 0)
  = (Instances.world0 [] 0,
     Raise (Exn "ZeroDivisionError" "integer division or modulo by zero")).
Proof.
  destruct (extract 0%Z Instances.batch_ab (Instances.world0 [] 0))
    as [w1 [extracted|e]] eqn:Hex; [|vm_compute in Hex; discriminate].
  assert (w1 = Instances.world0 [] 0) as ->.
  { vm_compute in Hex. by injection Hex as <- _. }
  exact (proj2 (collate_fn_zero_step 0%Z 0%Z Instances.batch_ab
                  (Instances.world0 [] 0) eq_refl) extracted Hex).
Defined.

Lemma collate_fn_reads_ap_and_step_witness :
  (collate_fn 0%Z 0%Z Instances.batch_ab (Instances.world0 [] 5)).2
  = (collate_fn 0%Z 0%Z Instances.batch_ab
       (Instances.world0 Instances.rows18 5)).2.
Proof.
  apply (collate_fn_reads_ap_and_step 0%Z 0%Z Instances.batch_ab
           (Instances.world0 [] 5) (Instances.world0 Instances.rows18 5));
    reflexivity.
Defined.

(** ** Batches that are always assembled *)

Section collate_total.
Context {F Cx : Type}.
Variable apply_preemphasis : list F → list F.
Variable stft : list F → list (list Cx).
Variable magnitude : Cx → F.
Variable amp_to_db normalize : F → F.
Variable mel_basis : list (list F).
Variable dot : list F → list F → F.
Variable n_frames : nat → nat.
Variable freq_bins : nat.

Hypothesis preemphasis_length : ∀ y, length (apply_preemphasis y) = length y.
Hypothesis stft_bins : ∀ y, length (stft y) = freq_bins.
Hypothesis stft_frames :
  ∀ y, Forall (λ bins, length bins = n_frames (length y)) (stft y).
Hypothesis mel_bands : mel_basis ≠ [].

Abbreviation frontend' :=
  (SpectralFrontend apply_preemphasis stft magnitude amp_to_db normalize
     mel_basis dot).






End collate_total.


(** ** Construction of the dataset *)

Section init_facts.
Context {F : Type}.
Variable np_argsort : list Z → list nat.
Variable read_lines : string → result (list string).
Variable new_AudioProcessor : Z → audio_params (F := F) → AudioProcessor (F := F).
Implicit Types (E : list (list string)) (w : world (F := F)).

(** The rows picked in the order of a sorting list of positions. *)
Lemma argsort_rows_sorted E (idxs : list nat) :
  is_argsort (lengths_of E) idxs →
  (λ idx, E !!! idx) <$> idxs ≡ₚ E ∧
  StronglySorted by_length ((λ idx, E !!! idx) <$> idxs).
Proof.
  intros [Hperm Hsorted].
  assert (length (lengths_of E) = length E) as Hlen
    by (unfold lengths_of; by rewrite length_fmap).
  rewrite Hlen in Hperm.
  assert (Forall (λ idx, idx < length E) idxs) as Hrange.
  { rewrite Hperm. apply Forall_seq. lia. }
  split.
  - rewrite Hperm. by rewrite fmap_lookup_total_seq.
  - clear Hperm. revert Hsorted Hrange.
    induction idxs as [|a idxs IH]; [constructor|].
    rewrite !fmap_cons. intros [Hhd Htl]%StronglySorted_cons [Ha Hrange]%Forall_cons.
    constructor; [by apply IH|].
    rewrite Forall_fmap in Hhd. rewrite Forall_fmap.
    rewrite Forall_forall in Hhd, Hrange. apply Forall_forall. intros b Hb.
    specialize (Hhd b Hb). specialize (Hrange b Hb). simpl in *.
    unfold by_length. unfold lengths_of in Hhd.
    rewrite (list_lookup_total_fmap _ E a Ha) in Hhd.
    rewrite (list_lookup_total_fmap _ E b Hrange) in Hhd. lia.
Qed.

(** The run of [_sort_frames] on a table that it accepts. *)
Lemma _sort_frames_run E w :
  frames (self w) = Some <$> E →
  E ≠ [] →
  Forall (λ fields, 2 ≤ length fields) E →
  is_argsort (lengths_of E) (np_argsort (lengths_of E)) →
  ∃ longest shortest,
    np_max (lengths_of E) = Ok longest ∧ np_min (lengths_of E) = Ok shortest ∧
    _sort_frames np_argsort w
      = ({| self := with_frames
                      (Some <$> ((λ idx, E !!! idx) <$> np_argsort (lengths_of E)))
                      (self w);
            stdout := stdout w ++
              [Print " | > Max length sequence {}" (PInt longest);
               Print " | > Min length sequence {}" (PInt shortest);
               Print " | > Avg length sequence {}"
                     (PMean (foldr Z.add 0%Z (lengths_of E)) (length E))] |},
         Ok tt).
Proof.
  intros Hframes Hne Hfields [Hperm Hsorted].
  assert (length (lengths_of E) = length E) as Hlen
    by (unfold lengths_of; by rewrite length_fmap).
  rewrite Hlen in Hperm.
  assert (Forall (λ idx, idx < length E) (np_argsort (lengths_of E))) as Hrange.
  { rewrite Hperm. apply Forall_seq. lia. }
  assert (length (np_argsort (lengths_of E)) = length E) as Hidxs
    by (by rewrite Hperm, length_seq).
  destruct (_sort_frames_cases np_argsort w)
    as [(e & Hlens & _)|(lengths & Hlens & Hrest)];
    rewrite Hframes, (comprehension_len_ins_1 E Hfields) in Hlens; [done|].
  injection Hlens as <-.
  destruct Hrest as [[Hnil _]|(longest & shortest & Hmax & Hmin & Hfill)].
  { apply (f_equal length) in Hnil. rewrite Hlen in Hnil. by destruct E. }
  exists longest, shortest. split; [done|]. split; [done|].
  cbv zeta in Hfill. rewrite Hframes, Hlen in Hfill.
  rewrite (fill_new_frames_spec E _ 0 _ Hrange) in Hfill
    by (rewrite length_replicate; lia).
  rewrite Hidxs in Hfill. simpl take in Hfill.
  rewrite (drop_ge (replicate _ _)) in Hfill by (rewrite length_replicate; lia).
  rewrite app_nil_r in Hfill. exact Hfill.
Qed.

(** X15: for a manifest that is not empty and whose lines all contain the
    separator, [__init__] returns an object whose table is a permutation
    of the rows [line.split('|')], sorted non-decreasing by transcript
    length, and whose other fields are the arguments; five lines are
    printed, the second with the number of lines. *)
Theorem __init___builds_sorted_table (csv_file root : string) (r sr : Z)
    (cleaner : string) (params : audio_params (F := F))
    (out : list printed) (lines : list string) :
  read_lines csv_file = Ok lines →
  lines ≠ [] →
  Forall (λ line, 1 ≤ count_char "|" line) lines →
  let E := split_on "|" <$> lines in
  is_argsort (lengths_of E) (np_argsort (lengths_of E)) →
  ∃ s E' longest shortest,
    __init__ np_argsort read_lines new_AudioProcessor
      csv_file root r sr cleaner params out
    = (out ++
         [Print " > Reading LJSpeech from - {}" (PStr root);
          Print " | > Number of instances : {}" (PInt (Z.of_nat (length lines)));
          Print " | > Max length sequence {}" (PInt longest);
          Print " | > Min length sequence {}" (PInt shortest);
          Print " | > Avg length sequence {}"
                (PMean (foldr Z.add 0%Z (lengths_of E)) (length lines))],
       Ok s) ∧
    frames s = Some <$> E' ∧ E' ≡ₚ E ∧ StronglySorted by_length E' ∧
    root_dir s = root ∧ outputs_per_step s = r ∧ sample_rate s = sr ∧
    cleaners s = cleaner ∧ ap s = new_AudioProcessor sr params.
Proof.
  intros Hread Hne Hsep E Hargsort.
  assert (Forall (λ fields, 2 ≤ length fields) E) as Hfields.
  { unfold E. rewrite Forall_fmap. eapply Forall_impl; [exact Hsep|].
    intros line Hline. cbv beta in Hline.
    change (2 ≤ length (split_on "|" line)).
    rewrite length_split_on_count. lia. }
  assert (E ≠ []) as HE by (unfold E; by destruct lines).
  set (s0 := {| frames := Some <$> E; root_dir := root; outputs_per_step := r;
                sample_rate := sr; cleaners := cleaner;
                ap := new_AudioProcessor sr params |}).
  set (out0 := out ++
         [Print " > Reading LJSpeech from - {}" (PStr root);
          Print " | > Number of instances : {}" (PInt (Z.of_nat (length lines)))]).
  destruct (_sort_frames_run E {| self := s0; stdout := out0 |} eq_refl HE
              Hfields Hargsort) as (longest & shortest & _ & _ & Hrun).
  destruct (argsort_rows_sorted E _ Hargsort) as [Hperm Hsorted].
  exists (with_frames (Some <$> ((λ idx, E !!! idx) <$> np_argsort (lengths_of E))) s0),
         ((λ idx, E !!! idx) <$> np_argsort (lengths_of E)), longest, shortest.
  split; [|by repeat split].
  unfold __init__. rewrite Hread. run_M.
  rewrite length_fmap.
  replace ((λ line, Some (split_on "|" line)) <$> lines) with (Some <$> E)
    by (unfold E; by rewrite <- list_fmap_compose).
  fold s0. rewrite <- app_assoc. simpl app. fold out0.
  rewrite Hrun. cbn [self stdout]. unfold out0. rewrite <- !app_assoc. simpl app.
  replace (length E) with (length lines) by (unfold E; by rewrite length_fmap).
  reflexivity.
Qed.
End init_facts.

Lemma __init___builds_sorted_table_witness :
  ∃ out s,
    __init__ NumPy.argsort Instances.read_lines Instances.new_AudioProcessor
      "metadata.csv" "LJSpeech-1.0/wavs" 5 22050 "english_cleaners"
      Instances.params [] = (out, Ok s) ∧
    length out = 5 ∧
    ∃ E', frames s = Some <$> E' ∧ StronglySorted by_length E'.
Proof.
  destruct (__init___builds_sorted_table NumPy.argsort Instances.read_lines
              Instances.new_AudioProcessor
              "metadata.csv" "LJSpeech-1.0/wavs" 5 22050 "english_cleaners"
              Instances.params [] Instances.manifest)
    as (s & E' & longest & shortest & Hrun & Hframes & _ & Hsorted & _).
  - reflexivity.
  - discriminate.
  - apply (bool_decide_unpack _). vm_compute. exact I.
  - split; apply (bool_decide_unpack _); vm_compute; exact I.
  - eexists _, s. split; [exact Hrun|]. split; [reflexivity|].
    by exists E'.
Defined.

Section init_failures.
Context {F : Type}.
Variable np_argsort : list Z → list nat.
Variable read_lines : string → result (list string).
Variable new_AudioProcessor : Z → audio_params (F := F) → AudioProcessor (F := F).

(** X16: for an empty manifest, [__init__] prints the directory and a
    count of zero, and then fails with the [ValueError] of [np.max] on
    the empty array of lengths: no dataset object is built. *)
Theorem __init___empty_manifest (csv_file root : string) (r sr : Z)
    (cleaner : string) (params : audio_params (F := F)) (out : list printed) :
  read_lines csv_file = Ok [] →
  __init__ np_argsort read_lines new_AudioProcessor
    csv_file root r sr cleaner params out
  = (out ++ [Print " > Reading LJSpeech from - {}" (PStr root);
             Print " | > Number of instances : {}" (PInt 0)],
     Raise (Exn "ValueError"
                ("zero-size array to reduction operation maximum" +:+
                 " which has no identity"))).
Proof.
  intros Hread. unfold __init__. rewrite Hread.
  unfold _sort_frames. run_M. by rewrite <- app_assoc.
Qed.

(** X17: when a line of the manifest contains no separator, [__init__]
    prints the directory and the number of lines, and then fails with the
    [IndexError] of [ins[1]]: no dataset object is built. *)
Theorem __init___line_without_separator (csv_file root : string) (r sr : Z)
    (cleaner : string) (params : audio_params (F := F)) (out : list printed)
    (lines : list string) :
  read_lines csv_file = Ok lines →
  Exists (λ line, count_char "|" line = 0) lines →
  __init__ np_argsort read_lines new_AudioProcessor
    csv_file root r sr cleaner params out
  = (out ++ [Print " > Reading LJSpeech from - {}" (PStr root);
             Print " | > Number of instances : {}"
                   (PInt (Z.of_nat (length lines)))],
     Raise (Exn "IndexError" "list index out of range")).
Proof.
  intros Hread Hline. unfold __init__. rewrite Hread. run_M.
  rewrite length_fmap.
  replace ((λ line, Some (split_on "|" line)) <$> lines)
    with (Some <$> (split_on "|" <$> lines))
    by (by rewrite <- list_fmap_compose).
  rewrite (_sort_frames_short np_argsort (split_on "|" <$> lines)); cbn [self stdout frames].
  - by rewrite <- app_assoc.
  - reflexivity.
  - rewrite Exists_fmap. eapply Exists_impl; [exact Hline|].
    intros line Hcount. cbv beta in Hcount.
    change (length (split_on "|" line) < 2).
    rewrite length_split_on_count. lia.
Qed.
End init_failures.

Lemma __init___empty_manifest_witness :
  __init__ NumPy.argsort Instances.read_lines Instances.new_AudioProcessor
    "empty.csv" "LJSpeech-1.0/wavs" 5 22050 "english_cleaners"
    Instances.params []
  = ([Print " > Reading LJSpeech from - {}" (PStr "LJSpeech-1.0/wavs");
      Print " | > Number of instances : {}" (PInt 0)],
     Raise (Exn "ValueError"
                ("zero-size array to reduction operation maximum" +:+
                 " which has no identity"))).
Proof.
  apply (__init___empty_manifest NumPy.argsort Instances.read_lines
           Instances.new_AudioProcessor "empty.csv" "LJSpeech-1.0/wavs" 5 22050
           "english_cleaners" Instances.params []).
  reflexivity.
Defined.

Lemma __init___line_without_separator_witness :
  __init__ NumPy.argsort Instances.read_lines Instances.new_AudioProcessor
    "broken.csv" "LJSpeech-1.0/wavs" 5 22050 "english_cleaners"
    Instances.params []
  = ([Print " > Reading LJSpeech from - {}" (PStr "LJSpeech-1.0/wavs");
      Print " | > Number of instances : {}" (PInt 2)],
     Raise (Exn "IndexError" "list index out of range")).
Proof.
  apply (__init___line_without_separator NumPy.argsort Instances.read_lines
           Instances.new_AudioProcessor "broken.csv" "LJSpeech-1.0/wavs" 5 22050
           "english_cleaners" Instances.params []
           ["LJ001-0001|Printing|Printing" +:+ Instances.line_break;
            "LJ001-0002" +:+ Instances.line_break]).
  - reflexivity.
  - apply Exists_cons_tl, Exists_cons_hd. reflexivity.
Defined.

(** ** Contents of the emitted spectrograms *)

Section contents.
Context {F : Type} (zero pad_value : F).
Implicit Types (w : world (F := F)) (ds : list (sample (F := F))).

Lemma item3_pad_per_step {A} (pv : A) (a : list (list (list A))) (p : Z)
    (m : list (list A)) (r : list A) (b k t : nat) :
  a !! b = Some m → m !! k = Some r →
  item3 (pad_per_step pv a p) b k t = (r ++ replicate (Z.to_nat p) pv) !! t.
Proof.
  intros Hm Hr. unfold item3, pad_per_step.
  rewrite list_lookup_fmap, Hm. simpl.
  rewrite list_lookup_fmap, Hr. reflexivity.
Qed.

(** X18: in an assembled batch, frame [t] and bin [k] of example [b] is
    entry [[k][t]] of the spectrogram of that example's waveform, padded
    with zeros to the longest waveform of the batch, as long as [t] is a
    frame of the spectrogram; the frames after it hold the pad value.
    The same holds of the mel spectrogram, with the same number of added
    frames. *)
Theorem collate_fn_contents ds w w' out :
  collate_fn zero pad_value (Mapping <$> ds) w = (w', Ok out) →
  let width := max_list ((λ d, length (wav d)) <$> ds) in
  let padded_wav d := wav d ++ replicate (width - length (wav d)) zero in
  ∃ pad_len : Z,
    (∀ d0, head ds = Some d0 →
       pad_len = step_pad_len
                   (Z.of_nat (row_length (melspectrogram (ap (self w)) (padded_wav d0))))
                   (outputs_per_step (self w))) ∧
    ∀ b d k t, ds !! b = Some d →
      (∀ bins, spectrogram (ap (self w)) (padded_wav d) !! k = Some bins →
         item3 (linear_spectrogram out) b t k
         = (bins ++ replicate (Z.to_nat pad_len) pad_value) !! t) ∧
      (∀ band, melspectrogram (ap (self w)) (padded_wav d) !! k = Some band →
         item3 (mel_spectrogram out) b t k
         = (band ++ replicate (Z.to_nat pad_len) pad_value) !! t).
Proof.
  intros Hrun width padded_wav.
  apply collate_fn_Ok in Hrun
    as (-> & _ & txt & lens & linear & mel & first & ids & Hex & ->).
  apply extract_Ok in Hex as (_ & ds' & Hds' & _ & _ & _ & _ & Hlin & Hmel & _).
  apply Mapping_fmap_inj in Hds' as <-.
  pose proof (stacked_is_matrix _ _ Hlin) as (kl & tl & Hlin_shape).
  pose proof (stacked_is_matrix _ _ Hmel) as (km & tm & Hmel_shape).
  apply np_array_Ok in Hlin as [-> _], Hmel as [-> _].
  assert (∀ b d, ds !! b = Some d →
            prepare_data zero (wav <$> ds) !! b = Some (padded_wav d)) as Hwav.
  { intros b d Hd.
    assert ((wav <$> ds) !! b = Some (wav d)) as Hb
      by (by rewrite list_lookup_fmap, Hd).
    destruct (SequencePadder_pad_row zero (wav <$> ds) b (wav d) Hb)
      as (_ & Hrow & _).
    unfold prepare_data, padded_wav, width. rewrite Hrow.
    by rewrite <- list_fmap_compose. }
  exists (step_pad_len
            (Z.of_nat (shape2 (melspectrogram (ap (self w))
                                 <$> prepare_data zero (wav <$> ds))))
            (outputs_per_step (self w))).
  split.
  - intros d0 Hd0. rewrite head_lookup in Hd0.
    unfold shape2. rewrite head_lookup, list_lookup_fmap.
    rewrite (Hwav 0 d0 Hd0). reflexivity.
  - intros b d k t Hd. cbn [linear_spectrogram mel_spectrogram]. split.
    + intros bins Hbins.
      rewrite (transpose_021_lookup _ kl (tl + Z.to_nat _))
        by (by apply pad_per_step_is_matrix).
      apply (item3_pad_per_step _ _ _ (spectrogram (ap (self w)) (padded_wav d)));
        [|done].
      by rewrite list_lookup_fmap, (Hwav b d Hd).
    + intros band Hband.
      rewrite (transpose_021_lookup _ km (tm + Z.to_nat _))
        by (by apply pad_per_step_is_matrix).
      apply (item3_pad_per_step _ _ _ (melspectrogram (ap (self w)) (padded_wav d)));
        [|done].
      by rewrite list_lookup_fmap, (Hwav b d Hd).
Qed.
End contents.

Lemma collate_fn_contents_witness :
  ∃ out,
    collate_fn 0%Z 0%Z Instances.batch_ab (Instances.world0 [] 5)
      = (Instances.world0 [] 5, Ok out) ∧
    ∃ pad_len : Z,
      item3 (linear_spectrogram out) 0 8 1
      = ((Z.opp <$> replicate 7 0%Z) ++ replicate (Z.to_nat pad_len) 0%Z) !! 8.
Proof.
  destruct (collate_fn 0%Z 0%Z Instances.batch_ab (Instances.world0 [] 5))
    as [w' [out|e]] eqn:Hrun; [|vm_compute in Hrun; discriminate].
  destruct (collate_fn_contents 0%Z 0%Z
              [Instances.sample_a; Instances.sample_b] _ w' out Hrun)
    as (pad_len & _ & Hitems).
  exists out. split.
  - vm_compute in Hrun. injection Hrun as <- <-. vm_compute. reflexivity.
  - exists pad_len.
    exact (proj1 (Hitems 0 Instances.sample_a 1 8 eq_refl)
                 (Z.opp <$> replicate 7 0%Z) eq_refl).
Defined.
